(** * dbprak: bounding boxes over graph-stored nodes, and junction aggregation

  Shallow embedding of [task3/src/utility.py] and
  [task4/eloop_creation.py].

  Conventions.
  - A coordinate is a finite number.  Every finite binary64 value and
    every Python integer is a rational, and the box code only compares
    coordinates (no arithmetic), so [Q] with [Qlt]/[Qeq] is exact for
    [min], [max], [<=] and [==].  Python's [==] on numbers is [Qeq], not
    syntactic equality (1/2 and 2/4 stand to each other as 0.0 and -0.0).
  - Timestamps, node ids and loop ids are Python integers: [Z].
  - A Python [str] is a [string]; a character stands for the code point
    with the same number.
  - An exception is a value of [exn]; code that can raise returns a sum
    [exn + A], and code that mutates before it raises returns the store
    it leaves behind together with the outcome.
  - The database behind the global [driver] is an explicit [Graph]
    argument; connection failures are outside the model. *)

From Stdlib Require Import ZArith QArith List String Ascii Bool Lia.
From Stdlib Require Import Permutation.
Import ListNotations.

Local Open Scope Z_scope.

(** ** Python built-ins used by the two files *)

Module Py.

(** Exceptions that the modelled code can raise. *)
Inductive exn : Type :=
| ValueError        (* int() on a malformed literal *)
| KeyError          (* label not found in a frame or in an index *)
| IndexError        (* list index out of range *)
| TypeError         (* unpacking a scalar *)
| AttributeError    (* list method called on a multi-row selection *)
| AssertionError.

Definition bind {A B : Type} (m : exn + A) (k : A -> exn + B) : exn + B :=
  match m with
  | inl e => inl e
  | inr a => k a
  end.

(** [a < b] on numbers. *)
Definition lt (a b : Q) : bool :=
  (Qnum a * QDen b <? Qnum b * QDen a)%Z.

(** [a <= b] on numbers. *)
Definition le (a b : Q) : bool := Qle_bool a b.

(** [a == b] on numbers. *)
Definition eq (a b : Q) : bool := Qeq_bool a b.

(** [min(a, b)]: the first argument is kept unless a later one is
    strictly smaller. *)
Definition min (a b : Q) : Q := if lt b a then b else a.

(** [max(a, b)]: the first argument is kept unless a later one is
    strictly greater. *)
Definition max (a b : Q) : Q := if lt a b then b else a.

(** [l1 == l2] on lists of numbers: same length and pairwise [==]. *)
Fixpoint list_eq (l1 l2 : list Q) : bool :=
  match l1, l2 with
  | [], [] => true
  | a :: l1', b :: l2' => eq a b && list_eq l1' l2'
  | _, _ => false
  end.

(** [l[i]] for a non-negative index. *)
Definition getitem {A : Type} (l : list A) (i : nat) : exn + A :=
  match nth_error l i with
  | Some a => inr a
  | None => inl IndexError
  end.

(** [s.split(sep)] for a one-character separator: every occurrence
    cuts, so adjacent separators and separators at either end give
    empty pieces, and the empty string gives one empty piece. *)
Fixpoint split (sep : ascii) (s : string) : list string :=
  match s with
  | EmptyString => [EmptyString]
  | String c rest =>
      if Ascii.eqb c sep then EmptyString :: split sep rest
      else match split sep rest with
           | [] => [String c EmptyString]
           | w :: ws => String c w :: ws
           end
  end.

(** White space that [int] skips on either side of the literal: tab,
    line feed, vertical tab, form feed, carriage return, space, and the
    two Latin-1 spaces (next line, no-break space). *)
Definition is_space (c : ascii) : bool :=
  let n := nat_of_ascii c in
  ((9 <=? n) && (n <=? 13) || (n =? 32) || (n =? 133) || (n =? 160))%nat.

Definition digit_val (c : ascii) : option Z :=
  let n := Z.of_nat (nat_of_ascii c) in
  if (48 <=? n) && (n <=? 57) then Some (n - 48) else None.

Fixpoint lstrip (s : string) : string :=
  match s with
  | String c rest => if is_space c then lstrip rest else s
  | EmptyString => EmptyString
  end.

Fixpoint all_space (s : string) : bool :=
  match s with
  | String c rest => is_space c && all_space rest
  | EmptyString => true
  end.

(** The digits of a base-10 literal, most significant first.  Single
    underscores may separate digits; [after_digit] says that the
    previous character was a digit, which is what an underscore, the
    trailing white space and the end of the literal require. *)
Fixpoint int_digits (s : string) (acc : Z) (after_digit : bool) : option Z :=
  match s with
  | EmptyString => if after_digit then Some acc else None
  | String c rest =>
      match digit_val c with
      | Some d => int_digits rest (10 * acc + d) true
      | None =>
          if after_digit && Ascii.eqb c "_" then int_digits rest acc false
          else if after_digit && is_space c && all_space rest then Some acc
          else None
      end
  end.

(** [int(s)] for a string: [None] stands for [ValueError].  (The
    interpreter's optional cap on the number of digits is not part of
    the model.) *)
Definition int (s : string) : option Z :=
  match lstrip s with
  | String "+" rest => int_digits rest 0 false
  | String "-" rest => option_map Z.opp (int_digits rest 0 false)
  | s' => int_digits s' 0 false
  end.

(** [range(start, stop, step)] for a positive step. *)
Definition range (start stop step : Z) : list Z :=
  map (fun k => start + Z.of_nat k * step)
      (seq 0 (Z.to_nat ((stop - start + step - 1) / step))).

End Py.

Notation "x <- m ;; k" := (Py.bind m (fun x => k))
(at level 61, m at next level, right associativity).
Notation "' pat <- m ;; k" := (Py.bind m (fun x => match x with pat => k end))
(at level 61, pat pattern, m at next level, right associativity).

(** ** The property graph that the queries read *)

Module GraphDB.

(** [(:Node {time, id, x, y, z})] *)
Record Node : Type :=
  { n_time : Z; n_id : Z; n_x : Q; n_y : Q; n_z : Q }.

(** [(:Loop {global_id, time})] *)
Record Loop : Type := { l_global_id : Z; l_time : Z }.

(** [(:Junction {global_id, time, type})]; the global id is the
    hyphen-joined text of the loop ids it connects. *)
Record Junction : Type :=
  { j_global_id : string; j_time : Z; j_type : string }.

(** Entities are identified by their position in the store.  A pair
    [(i, j)] of [node_loop] is one relationship between the [i]-th node
    and the [j]-th loop. *)
Record Graph : Type :=
  { nodes : list Node;
    loops : list Loop;
    junctions : list Junction;
    node_loop : list (nat * nat) }.

(** All bindings [(n, l)] of the pattern [(n:Node)--(l:Loop)], one per
    relationship. *)
Definition node_loop_pairs (g : Graph) : list (Node * Loop) :=
  flat_map (fun ij : nat * nat =>
              match nth_error (nodes g) (fst ij),
                    nth_error (loops g) (snd ij) with
              | Some n, Some l => [(n, l)]
              | _, _ => []
              end)
           (node_loop g).

End GraphDB.

(** ** The part of pandas that the code touches *)

Module Frame.

(** A column label is a string; indexing a frame with several
    comma-separated strings passes their tuple as one label. *)
Inductive label : Type :=
| Lbl (s : string)
| LblTuple (ls : list string).

Definition label_eqb (a b : label) : bool :=
  match a, b with
  | Lbl s, Lbl t => String.eqb s t
  | LblTuple ls, LblTuple lt =>
      if list_eq_dec string_dec ls lt then true else false
  | _, _ => false
  end.

Inductive cell : Type :=
| CInt (z : Z)
| CNum (q : Q)
| CIds (ids : list Z).

Record DataFrame : Type :=
  { columns : list label; data : list (list cell) }.

(** [pd.DataFrame(records)] for the records of a query result whose
    keys are [keys]: without records the frame has no columns. *)
Definition from_records (keys : list string) (records : list (list cell))
  : DataFrame :=
  match records with
  | [] => {| columns := []; data := [] |}
  | _ => {| columns := map Lbl keys; data := records |}
  end.

Fixpoint get_loc (cols : list label) (key : label) : option nat :=
  match cols with
  | [] => None
  | c :: cols' =>
      if label_eqb c key then Some O else option_map S (get_loc cols' key)
  end.

(** [df[key]] for a single label: the column of that name. *)
Definition getitem (df : DataFrame) (key : label) : Py.exn + list cell :=
  match get_loc (columns df) key with
  | None => inl Py.KeyError
  | Some i => inr (map (fun r => nth i r (CInt 0)) (data df))
  end.

Definition number (c : cell) : option Q :=
  match c with
  | CInt z => Some (inject_Z z)
  | CNum q => Some q
  | CIds _ => None
  end.

(** [s.min()] and [s.max()] of a numeric column: one scalar, [None]
    (NaN) when there is nothing to reduce. *)
Definition reduce (f : Q -> Q -> Q) (s : list cell) : option Q :=
  fold_left (fun acc c =>
               match acc, number c with
               | Some a, Some q => Some (f a q)
               | None, Some q => Some q
               | _, None => acc
               end) s None.
Definition series_min (s : list cell) : option Q := reduce Py.min s.
Definition series_max (s : list cell) : option Q := reduce Py.max s.

(** [a, b, c = v] for a scalar [v]: a number cannot be unpacked. *)
Definition unpack3 (v : option Q) : Py.exn + (Q * Q * Q) :=
  inl Py.TypeError.

End Frame.

(** ** task3/src/utility.py *)

Module Utility.

Import GraphDB Frame.

(** A point is indexed at 0, 1 and 2 only. *)
Record point : Type := Point { px : Q; py : Q; pz : Q }.

Definition compute_box_constraints (p1 p2 : point) : list Q :=
  let min_x := Py.min (px p1) (px p2) in
  let max_x := Py.max (px p1) (px p2) in
  let min_y := Py.min (py p1) (py p2) in
  let max_y := Py.max (py p1) (py p2) in
  let min_z := Py.min (pz p1) (pz p2) in
  let max_z := Py.max (pz p1) (pz p2) in
  let contraints := [min_x; max_x; min_y; max_y; min_z; max_z] in
  contraints.

Definition check_same_box (p1 p2 p3 p4 : point) : bool :=
  Py.list_eq (compute_box_constraints p1 p2) (compute_box_constraints p3 p4).

(** The eight ways of naming a diagonal of the box spanned by [p1] and
    [p2]: on each axis the first corner takes the coordinate of [p1] or
    of [p2] and the second corner takes the other one. *)
Definition pick (swap : bool) (a b : Q) : Q := if swap then b else a.

Definition relabel (sx sy sz : bool) (p1 p2 : point) : point * point :=
  (Point (pick sx (px p1) (px p2)) (pick sy (py p1) (py p2))
         (pick sz (pz p1) (pz p2)),
   Point (pick sx (px p2) (px p1)) (pick sy (py p2) (py p1))
         (pick sz (pz p2) (pz p1))).

(** *** sort_by_distance

    [dist to point] stands for the number that
    [np.linalg.norm(to - point)] computes and [argsort] for
    [np.argsort]; both belong to numpy, and the order that [np.argsort]
    gives to equal keys is decided there. *)
Section SortByDistance.

Variable dist : point -> point -> Q.
Variable argsort : list Q -> list nat.

(** [[points[i] for i in sorted_index]] *)
Fixpoint take (points : list point) (sorted_index : list nat)
  : Py.exn + list point :=
  match sorted_index with
  | [] => inr []
  | i :: rest =>
      p <- Py.getitem points i ;;
      ps <- take points rest ;;
      inr (p :: ps)
  end.

Definition sort_by_distance (points : list point) (to : point) (asc : bool)
  : Py.exn + list point :=
  let distances := map (fun point => dist to point) points in
  let sorted_index := argsort distances in
  let sorted_index := if negb asc then rev sorted_index else sorted_index in
  take points sorted_index.

End SortByDistance.

(** *** The two read queries

    A query is kept as its parameters rather than as its text. *)
Inductive query : Type :=
| query_nodes (timestamp : Z) (c0 c1 c2 c3 c4 c5 : Q)
| query_loop_nodes (timestamp : Z) (loop_gid : Z).

(** [c0 <= n.x <= c1 and c2 <= n.y <= c3 and c4 <= n.z <= c5] *)
Definition in_box (c0 c1 c2 c3 c4 c5 : Q) (n : Node) : bool :=
  Py.le c0 (n_x n) && Py.le (n_x n) c1
  && Py.le c2 (n_y n) && Py.le (n_y n) c3
  && Py.le c4 (n_z n) && Py.le (n_z n) c5.

(** The grouping key of the aggregation: the returned expressions
    other than [collect(...)]. *)
Definition same_key (m n : Node) : bool :=
  (n_time m =? n_time n) && (n_id m =? n_id n)
  && Py.eq (n_x m) (n_x n) && Py.eq (n_y m) (n_y n) && Py.eq (n_z m) (n_z n).

Definition mem (gid : Z) (ids : list Z) : bool := existsb (Z.eqb gid) ids.

(** [collect(distinct l.global_id)] per key, one binding at a time. *)
Fixpoint add_candidate (n : Node) (gid : Z) (acc : list (Node * list Z))
  : list (Node * list Z) :=
  match acc with
  | [] => [(n, [gid])]
  | (m, ids) :: acc' =>
      if same_key m n
      then (m, if mem gid ids then ids else ids ++ [gid]) :: acc'
      else (m, ids) :: add_candidate n gid acc'
  end.

Definition group (bindings : list (Node * Loop)) : list (Node * list Z) :=
  fold_left (fun acc nl => add_candidate (fst nl) (l_global_id (snd nl)) acc)
            bindings [].

(** Every group stands for a selected node and holds the id of one of
    the loops bound with it. *)
Definition group_sound (all : list (Node * Loop)) (acc : list (Node * list Z))
  : Prop :=
  forall m ids, In (m, ids) acc ->
                exists l, In (m, l) all /\ In (l_global_id l) ids.

Definition node_row (n : Node) (ids : list Z) : list cell :=
  [CInt (n_time n); CInt (n_id n); CNum (n_x n); CNum (n_y n);
   CNum (n_z n); CIds ids].

Definition loop_node_row (n : Node) : list cell :=
  [CInt (n_time n); CInt (n_id n); CNum (n_x n); CNum (n_y n); CNum (n_z n)].

(** [run_query(query, {})]: the rows come in the order of the store;
    the database itself promises no order. *)
Definition run_query (g : Graph) (q : query) : DataFrame :=
  match q with
  | query_nodes timestamp c0 c1 c2 c3 c4 c5 =>
      from_records
        ["timestamp"; "node_id"; "x"; "y"; "z"; "loop_candidates"]%string
        (map (fun nc => node_row (fst nc) (snd nc))
             (group (filter (fun nl => (n_time (fst nl) =? timestamp)
                                       && in_box c0 c1 c2 c3 c4 c5 (fst nl))
                            (node_loop_pairs g))))
  | query_loop_nodes timestamp loop_gid =>
      from_records
        ["timestamp"; "node_id"; "x"; "y"; "z"]%string
        (map (fun nl => loop_node_row (fst nl))
             (filter (fun nl => (n_time (fst nl) =? timestamp)
                                && (l_global_id (snd nl) =? loop_gid)
                                && (l_time (snd nl) =? timestamp))
                     (node_loop_pairs g)))
  end.

Definition get_nodes_in_box (g : Graph) (p1 p2 : point) (timestamp : Z)
           (where_clause : option string) : Py.exn + DataFrame :=
  let constraints := compute_box_constraints p1 p2 in
  c0 <- Py.getitem constraints 0 ;;
  c1 <- Py.getitem constraints 1 ;;
  c2 <- Py.getitem constraints 2 ;;
  c3 <- Py.getitem constraints 3 ;;
  c4 <- Py.getitem constraints 4 ;;
  c5 <- Py.getitem constraints 5 ;;
  let query_nodes := query_nodes timestamp c0 c1 c2 c3 c4 c5 in
  let res := run_query g query_nodes in
  inr res.

Definition fit_box_to_loop (g : Graph) (loop_gid : Z) (timestamp : Z)
  : Py.exn + (point * point * list Q) :=
  let query_loop_nodes := query_loop_nodes timestamp loop_gid in
  let res := run_query g query_loop_nodes in
  lo <- getitem res (LblTuple ["x"; "y"; "z"]%string) ;;
  '(min_x, min_y, min_z) <- unpack3 (series_min lo) ;;
  hi <- getitem res (LblTuple ["x"; "y"; "z"]%string) ;;
  '(max_x, max_y, max_z) <- unpack3 (series_max hi) ;;
  let p1 := Point min_x min_y min_z in
  let p2 := Point max_x max_y max_z in
  let constraints := [min_x; max_x; min_y; max_y; min_z; max_z] in
  if Py.list_eq (compute_box_constraints p1 p2) constraints
  then inr (p1, p2, constraints)
  else inl Py.AssertionError.

(** The node lies within the inclusive bounds of the box of [p1], [p2]. *)
Definition inside_box (p1 p2 : point) (n : Node) : Prop :=
  (Py.min (px p1) (px p2) <= n_x n <= Py.max (px p1) (px p2))%Q
  /\ (Py.min (py p1) (py p2) <= n_y n <= Py.max (py p1) (py p2))%Q
  /\ (Py.min (pz p1) (pz p2) <= n_z n <= Py.max (pz p1) (pz p2))%Q.

(** The per-axis extremes of a node list, as [min()] and [max()] of the
    three coordinate columns give them. *)
Definition extremes (ns : list Node) : option (point * point) :=
  match series_min (map (fun n => CNum (n_x n)) ns),
        series_min (map (fun n => CNum (n_y n)) ns),
        series_min (map (fun n => CNum (n_z n)) ns),
        series_max (map (fun n => CNum (n_x n)) ns),
        series_max (map (fun n => CNum (n_y n)) ns),
        series_max (map (fun n => CNum (n_z n)) ns) with
  | Some x0, Some y0, Some z0, Some x1, Some y1, Some z1 =>
      Some (Point x0 y0 z0, Point x1 y1 z1)
  | _, _, _, _, _, _ => None
  end.

End Utility.

(** ** task4/eloop_creation.py: the aggregation loop *)

Module Eloop.

Import GraphDB.

(** One entry of [final_dict]'s four parallel lists, which is one row
    of [final_df] under the index [(id, time)].  The frame is rebuilt
    from the dictionary at every timestamp and holds the very list
    objects of the dictionary, so a list mutated through the frame is
    mutated in the dictionary and in every later frame: one store of
    rows stands for both. *)
Record row : Type :=
  { id : Z; time : Z; jtypes : list string; connected_loops : list Z }.

Definition frame : Type := list row.

(** [MATCH (l:Loop{time:$time}) RETURN l.global_id as id] *)
Definition loop_query (g : Graph) (ts : Z) : list Z :=
  map l_global_id (filter (fun l => l_time l =? ts) (loops g)).

(** [MATCH (j:Junction{time: $time}) RETURN j.global_id, j.type] *)
Definition junction_query (g : Graph) (ts : Z) : list (string * string) :=
  map (fun j => (j_global_id j, j_type j))
      (filter (fun j => j_time j =? ts) (junctions g)).

(** Code that runs against the store: it returns the store it leaves
    behind, also when it raises. *)
Definition M (A : Type) : Type := frame -> frame * (Py.exn + A).

Definition ret {A : Type} (a : A) : M A := fun df => (df, inr a).

Definition lift {A : Type} (r : Py.exn + A) : M A := fun df => (df, r).

Definition bind {A B : Type} (m : M A) (k : A -> M B) : M B :=
  fun df =>
    match m df with
    | (df', inr a) => k a df'
    | (df', inl e) => (df', inl e)
    end.

Notation "x <~ m ;; k" := (bind m (fun x => k))
  (at level 61, m at next level, right associativity).
Notation "m ;;; k" := (bind m (fun _ => k))
  (at level 61, right associativity).

(** [for x in xs: body(x)] *)
Fixpoint for_each {A : Type} (xs : list A) (body : A -> M unit) : M unit :=
  match xs with
  | [] => ret tt
  | x :: xs' => body x ;;; for_each xs' body
  end.

Definition is_row (loop_id ts : Z) (r : row) : bool :=
  (id r =? loop_id) && (time r =? ts).

(** [final_df.loc[loop_id, ts]]: the row under that index entry.  A
    missing entry raises [KeyError].  An entry that occurs more than
    once selects a frame instead of a row, so the list method called on
    its column does not exist ([AttributeError]; pandas before 2.0
    raises [TypeError] at the same place). *)
Definition loc (loop_id ts : Z) : M row :=
  fun df =>
    match filter (is_row loop_id ts) df with
    | [] => (df, inl Py.KeyError)
    | [r] => (df, inr r)
    | _ => (df, inl Py.AttributeError)
    end.

(** In-place mutation of the lists of the selected row. *)
Definition on_row (f : row -> row) (loop_id ts : Z) (r : row) : row :=
  if is_row loop_id ts r then f r else r.

Definition mutate (f : row -> row) (loop_id ts : Z) : M unit :=
  fun df => (map (on_row f loop_id ts) df, inr tt).

Definition append_jtype (jtype : string) (r : row) : row :=
  {| id := id r; time := time r; jtypes := jtypes r ++ [jtype];
     connected_loops := connected_loops r |}.

Definition extend_connected (peers : list Z) (r : row) : row :=
  {| id := id r; time := time r; jtypes := jtypes r;
     connected_loops := connected_loops r ++ peers |}.

(** [[int(loop) for loop in loops if int(loop) != loop_id]] *)
Fixpoint others (loops : list string) (loop_id : Z) : Py.exn + list Z :=
  match loops with
  | [] => inr []
  | loop :: rest =>
      match Py.int loop with
      | None => inl Py.ValueError
      | Some k =>
          peers <- others rest loop_id ;;
          inr (if negb (k =? loop_id) then k :: peers else peers)
      end
  end.

(** [int(loop)] *)
Definition int (loop : string) : Py.exn + Z :=
  match Py.int loop with
  | Some k => inr k
  | None => inl Py.ValueError
  end.

(** Lines 44-48: the body of [for loop in loops]. *)
Definition fold_loop (ts : Z) (junction : string * string)
           (loops : list string) (loop : string) : M unit :=
  loop_id <~ lift (int loop) ;;
  let jtype := snd junction in
  _ <~ loc loop_id ts ;;
  mutate (append_jtype jtype) loop_id ts ;;;
  _ <~ loc loop_id ts ;;
  peers <~ lift (others loops loop_id) ;;
  mutate (extend_connected peers) loop_id ts.

(** Lines 42-48: the body of [for _, junction in all_junctions.iterrows()]. *)
Definition fold_junction (ts : Z) (junction : string * string) : M unit :=
  let loops := Py.split "-" (fst junction) in
  for_each loops (fold_loop ts junction loops).

(** Lines 32-36: one fresh row with two fresh empty lists per loop. *)
Definition fresh_row (ts loop : Z) : row :=
  {| id := loop; time := ts; jtypes := []; connected_loops := [] |}.

Definition collect_loops (ts : Z) (all_loops : list Z) : M unit :=
  fun df => (df ++ map (fresh_row ts) all_loops, inr tt).

(** Lines 30-48: the body of [for ts in range(50, 10000, 50)]. *)
Definition process_timestamp (g : Graph) (ts : Z) : M unit :=
  let all_loops := loop_query g ts in
  collect_loops ts all_loops ;;;
  let all_junctions := junction_query g ts in
  for_each all_junctions (fold_junction ts).

(** Lines 22-48, from the empty [final_dict]. *)
Definition aggregate (g : Graph) : frame * (Py.exn + unit) :=
  for_each (Py.range 50 10000 50) (process_timestamp g) [].

(** What the aggregation holds for [(loop_id, ts)]. *)
Definition output (df : frame) (loop_id ts : Z)
  : option (list string * list Z) :=
  match filter (is_row loop_id ts) df with
  | r :: _ => Some (jtypes r, connected_loops r)
  | [] => None
  end.

Definition key (r : row) : Z * Z := (id r, time r).

(** A row does not list its own id among its connected loops. *)
Definition no_self (r : row) : Prop := ~ In (id r) (connected_loops r).

(** The loop ids that a junction's global id decodes to, when every
    token decodes. *)
Fixpoint decode (loops : list string) : option (list Z) :=
  match loops with
  | [] => Some []
  | loop :: rest =>
      match Py.int loop, decode rest with
      | Some k, Some ks => Some (k :: ks)
      | _, _ => None
      end
  end.


Definition collected (df : frame) (ts loop_id : Z) : Prop :=
  exists r, In r df /\ is_row loop_id ts r = true.

(** No loop id has more than one row at [ts]. *)
Definition distinct_at (df : frame) (ts : Z) : Prop :=
  forall k, (List.length (filter (is_row k ts) df) <= 1)%nat.

End Eloop.

(** ** Concrete inputs *)

Module Examples.

Import GraphDB Utility.

Definition T : Z := 50.

Definition node_A : Node :=
  {| n_time := T; n_id := 1; n_x := 0; n_y := 0; n_z := 0 |}.
Definition node_B : Node :=
  {| n_time := T; n_id := 2; n_x := 5; n_y := 5; n_z := 5 |}.
Definition node_C : Node :=
  {| n_time := T; n_id := 3; n_x := 10; n_y := 10; n_z := 10 |}.

Definition corner_1 : point := Point 1 1 1.
Definition corner_9 : point := Point 9 9 9.

(** The three nodes and nothing else: no node is connected to a loop. *)
Definition graph_ABC : Graph :=
  {| nodes := [node_A; node_B; node_C]; loops := []; junctions := [];
     node_loop := [] |}.

(** The three nodes, each connected to loop 7. *)
Definition graph_ABC_on_loop : Graph :=
  {| nodes := [node_A; node_B; node_C];
     loops := [{| l_global_id := 7; l_time := T |}];
     junctions := [];
     node_loop := [(0, 0); (1, 0); (2, 0)]%nat |}.

(** *** The aggregation loop *)

Import Eloop.

(** Loops 3, 1 and 2 at time 50 and the one junction "1-2" of type "T". *)
Definition graph_123 : Graph :=
  {| nodes := [];
     loops := [{| l_global_id := 3; l_time := 50 |};
               {| l_global_id := 1; l_time := 50 |};
               {| l_global_id := 2; l_time := 50 |}];
     junctions := [{| j_global_id := "1-2"; j_time := 50; j_type := "T" |}];
     node_loop := [] |}.



End Examples.

(** ** task4/eloop_creation.py: what one loop receives from the junctions *)

Module Contribution.

Import Eloop.

(** The junction types that the token [loop] of [junction] adds to the
    row of [k]: the type once when the token names [k]. *)
Definition token_types (k : Z) (junction : string * string) (loop : string)
  : list string :=
  match Py.int loop with
  | Some k' => if k' =? k then [snd junction] else []
  | None => []
  end.

(** The loop ids that the token [loop] adds to the row of [k]: the other
    ids of the junction when the token names [k]. *)
Definition token_peers (k : Z) (loops : list string) (loop : string) : list Z :=
  match Py.int loop with
  | Some k' =>
      if k' =? k
      then match others loops k with inr peers => peers | inl _ => [] end
      else []
  | None => []
  end.

Definition junction_types (k : Z) (junction : string * string) : list string :=
  flat_map (token_types k junction) (Py.split "-" (fst junction)).

Definition junction_peers (k : Z) (junction : string * string) : list Z :=
  let loops := Py.split "-" (fst junction) in
  flat_map (token_peers k loops) loops.

(** The rows that a completed scan collects, in order: one per loop of
    each timestamp. *)
Definition scanned_keys (g : GraphDB.Graph) (tss : list Z) : list (Z * Z) :=
  flat_map (fun ts => map (fun k => (k, ts)) (loop_query g ts)) tss.

End Contribution.

(** ** task4/eloop_creation.py: the two writing loops *)

Module EloopWriter.

Import Eloop.

(** The two write queries with their parameters. *)
Inductive write_query : Type :=
| create_eloop_query (time id : Z) (jtypes : list string)
| create_connections_query (id1 time1 id2 time2 : Z).

(** [index[key]] for the index entry of a row and a string [key]: the
    entry of a two-level index is a tuple, and a tuple is indexed by
    integers and slices only. *)
Definition tuple_getitem (index : Z * Z) (key : string) : Py.exn + Z :=
  inl Py.TypeError.

Section Writer.

(** The database that the write queries change, and what one write
    query does to it: both belong to the store. *)
Variable DB : Type.
Variable run_query : write_query -> DB -> DB.

Record state : Type := { db : DB; curr_time : Z }.

Definition W (A : Type) : Type := state -> state * (Py.exn + A).

Definition ret {A : Type} (a : A) : W A := fun s => (s, inr a).

Definition lift {A : Type} (r : Py.exn + A) : W A := fun s => (s, r).

Definition bind {A B : Type} (m : W A) (k : A -> W B) : W B :=
  fun s =>
    match m s with
    | (s', inr a) => k a s'
    | (s', inl e) => (s', inl e)
    end.

Fixpoint for_each {A : Type} (xs : list A) (body : A -> W unit) : W unit :=
  match xs with
  | [] => ret tt
  | x :: xs' => bind (body x) (fun _ => for_each xs' body)
  end.

Definition execute (q : write_query) : W unit :=
  fun s => ({| db := run_query q (db s); curr_time := curr_time s |}, inr tt).

(** [if (index["time"] != curr_time): curr_time = index["time"]] *)
Definition track (index : Z * Z) : W unit :=
  bind (lift (tuple_getitem index "time")) (fun t =>
  fun s =>
    if negb (t =? curr_time s)
    then bind (lift (tuple_getitem index "time"))
              (fun t' => fun s => ({| db := db s; curr_time := t' |}, inr tt)) s
    else (s, inr tt)).

(** Lines 51-56. *)
Definition create_eloop (r : row) : W unit :=
  let index := key r in
  bind (lift (tuple_getitem index "id")) (fun i =>
  bind (lift (tuple_getitem index "time")) (fun t =>
  bind (execute (create_eloop_query t i (jtypes r))) (fun _ =>
  track index))).

(** Lines 58-64. *)
Definition create_connections (r : row) : W unit :=
  let index := key r in
  bind (for_each (connected_loops r) (fun loop =>
          bind (lift (tuple_getitem index "id")) (fun i1 =>
          bind (lift (tuple_getitem index "time")) (fun t1 =>
          bind (lift (tuple_getitem index "time")) (fun t2 =>
          execute (create_connections_query i1 t1 loop t2))))))
       (fun _ => track index).

(** Lines 50-64, on the frame that the aggregation left. *)
Definition write (final_df : frame) : W unit :=
  fun s =>
    bind (for_each final_df create_eloop)
         (fun _ => for_each final_df create_connections)
         {| db := db s; curr_time := 50 |}.

(** The whole script: an exception of the aggregation ends it before
    line 50. *)
Definition script (g : GraphDB.Graph) (db0 : DB) : DB * (Py.exn + unit) :=
  match aggregate g with
  | (final_df, inr _) =>
      let sr := write final_df {| db := db0; curr_time := 50 |} in
      (db (fst sr), snd sr)
  | (_, inl e) => (db0, inl e)
  end.

End Writer.

End EloopWriter.

(** ** Boxes inside boxes *)

Module Boxes.

Import Utility.

(** The box of [p1], [p2] lies within the box of [p3], [p4]. *)
Definition box_within (p1 p2 p3 p4 : point) : Prop :=
  (Py.min (px p3) (px p4) <= Py.min (px p1) (px p2))%Q
  /\ (Py.max (px p1) (px p2) <= Py.max (px p3) (px p4))%Q
  /\ (Py.min (py p3) (py p4) <= Py.min (py p1) (py p2))%Q
  /\ (Py.max (py p1) (py p2) <= Py.max (py p3) (py p4))%Q
  /\ (Py.min (pz p3) (pz p4) <= Py.min (pz p1) (pz p2))%Q
  /\ (Py.max (pz p1) (pz p2) <= Py.max (pz p3) (pz p4))%Q.

End Boxes.

(** ** Facts about the built-ins *)

Section PyFacts.

Lemma py_lt_iff (a b : Q) : Py.lt a b = true <-> (a < b)%Q.
Proof. unfold Py.lt, Qlt. apply Z.ltb_lt. Qed.

Lemma py_lt_false_iff (a b : Q) : Py.lt a b = false <-> (b <= a)%Q.
Proof. unfold Py.lt, Qle. apply Z.ltb_ge. Qed.

Lemma py_le_iff (a b : Q) : Py.le a b = true <-> (a <= b)%Q.
Proof. apply Qle_bool_iff. Qed.

Lemma py_eq_iff (a b : Q) : Py.eq a b = true <-> (a == b)%Q.
Proof. apply Qeq_bool_iff. Qed.

Lemma py_list_eq_iff (l1 l2 : list Q) :
  Py.list_eq l1 l2 = true <-> Forall2 Qeq l1 l2.
Proof.
  revert l2; induction l1 as [|a l1 IH]; intros [|b l2]; simpl.
  - split; auto.
  - split; [discriminate | intros H; inversion H].
  - split; [discriminate | intros H; inversion H].
  - rewrite andb_true_iff, py_eq_iff, IH. split.
    + intros [H1 H2]; constructor; assumption.
    + intros H; inversion H; subst; split; assumption.
Qed.

Lemma py_min_comm (a b : Q) : (Py.min a b == Py.min b a)%Q.
Proof.
  unfold Py.min.
  destruct (Py.lt b a) eqn:Hba, (Py.lt a b) eqn:Hab;
    try reflexivity.
  - apply py_lt_iff in Hba, Hab.
    exfalso. apply (Qlt_irrefl a). eapply Qlt_trans; eassumption.
  - apply py_lt_false_iff in Hba, Hab. apply Qle_antisym; assumption.
Qed.

Lemma py_max_comm (a b : Q) : (Py.max a b == Py.max b a)%Q.
Proof.
  unfold Py.max.
  destruct (Py.lt b a) eqn:Hba, (Py.lt a b) eqn:Hab;
    try reflexivity.
  - apply py_lt_iff in Hba, Hab.
    exfalso. apply (Qlt_irrefl a). eapply Qlt_trans; eassumption.
  - apply py_lt_false_iff in Hba, Hab. apply Qle_antisym; assumption.
Qed.

Lemma py_min_le_max (a b : Q) : (Py.min a b <= Py.max a b)%Q.
Proof.
  unfold Py.min, Py.max.
  destruct (Py.lt b a) eqn:Hba, (Py.lt a b) eqn:Hab.
  - apply Qle_refl.
  - apply py_lt_iff in Hba. apply Qlt_le_weak; assumption.
  - apply py_lt_iff in Hab. apply Qlt_le_weak; assumption.
  - apply Qle_refl.
Qed.

End PyFacts.

(** ** Box geometry: theorems *)

Section BoxGeometry.

Import Utility.

(** C8. Swapping the two diagonal corners does not change the
    constraints: [compute_box_constraints(p1, p2) ==
    compute_box_constraints(p2, p1)] evaluates to [True], that is, the
    two 6-element lists agree entry by entry on (min_x, max_x, min_y,
    max_y, min_z, max_z). *)
Theorem compute_box_constraints_swap (p1 p2 : point) :
  Py.list_eq (compute_box_constraints p1 p2)
             (compute_box_constraints p2 p1) = true
  /\ Forall2 Qeq (compute_box_constraints p1 p2)
                 (compute_box_constraints p2 p1).
Proof.
  assert (H : Forall2 Qeq (compute_box_constraints p1 p2)
                          (compute_box_constraints p2 p1)).
  { unfold compute_box_constraints.
    repeat constructor; first [apply py_min_comm | apply py_max_comm]. }
  split; [apply py_list_eq_iff|]; exact H.
Qed.

Lemma pick_min (s : bool) (a b : Q) :
  (Py.min (pick s a b) (pick s b a) == Py.min a b)%Q.
Proof. destruct s; simpl; [apply py_min_comm | reflexivity]. Qed.

Lemma pick_max (s : bool) (a b : Q) :
  (Py.max (pick s a b) (pick s b a) == Py.max a b)%Q.
Proof. destruct s; simpl; [apply py_max_comm | reflexivity]. Qed.

(** C7. [check_same_box(p1, p2, p3, p4)] is [True] exactly when the two
    constraint lists are equal entry by entry, and it is [True] whenever
    [p3], [p4] name any diagonal of the box of [p1], [p2], in either
    order (all eight relabelings of the corners). *)
Theorem check_same_box_iff (p1 p2 p3 p4 : point) :
  (check_same_box p1 p2 p3 p4 = true <->
   Forall2 Qeq (compute_box_constraints p1 p2)
               (compute_box_constraints p3 p4))
  /\ (forall sx sy sz : bool,
        check_same_box p1 p2 (fst (relabel sx sy sz p1 p2))
                             (snd (relabel sx sy sz p1 p2)) = true).
Proof.
  split.
  - unfold check_same_box. apply py_list_eq_iff.
  - intros sx sy sz. unfold check_same_box. apply py_list_eq_iff.
    unfold compute_box_constraints, relabel; simpl.
    repeat constructor; symmetry;
      first [apply pick_min | apply pick_max].
Qed.

End BoxGeometry.

(** ** Queries of utility.py: theorems *)

Section Queries.

Import GraphDB Frame Utility.

Lemma data_from_records (keys : list string) (records : list (list cell)) :
  data (from_records keys records) = records.
Proof. destruct records; reflexivity. Qed.

Lemma get_loc_tuple_from_records keys records (ls : list string) :
  get_loc (columns (from_records keys records)) (LblTuple ls) = None.
Proof.
  destruct records; simpl; [reflexivity|].
  induction keys as [|k keys IH]; simpl; [reflexivity|].
  rewrite IH. reflexivity.
Qed.

(** C6. The [where_clause] argument of [get_nodes_in_box] does not
    reach the query: whatever string is passed, the call returns what it
    returns without one. *)
Theorem get_nodes_in_box_where_clause_unused
        (g : Graph) (p1 p2 : point) (timestamp : Z) (where_clause : string) :
  get_nodes_in_box g p1 p2 timestamp (Some where_clause)
  = get_nodes_in_box g p1 p2 timestamp None.
Proof. reflexivity. Qed.

(** C3 (failing as written). [fit_box_to_loop] never returns a triple:
    for every graph, loop id and timestamp the selection
    [res["x", "y", "z"]] looks the tuple up as one column label, no
    column of a query result has a tuple for its name, and the call
    ends in [KeyError]. *)
Theorem fit_box_to_loop_raises_KeyError
        (g : Graph) (loop_gid timestamp : Z) :
  fit_box_to_loop g loop_gid timestamp = inl Py.KeyError.
Proof.
  unfold fit_box_to_loop, getitem, run_query.
  rewrite get_loc_tuple_from_records. reflexivity.
Qed.

(** The assertion at the end of [fit_box_to_loop] is sound for the
    extremes it is meant for: the minimum of a non-empty column is below
    its maximum, so the box of the two extreme corners has exactly the
    six extremes as its constraints. *)
Lemma reduce_min_bound (xs : list Q) (a : Q) :
  exists m, fold_left (fun acc c =>
               match acc, number c with
               | Some a, Some q => Some (Py.min a q)
               | None, Some q => Some q
               | _, None => acc
               end) (map CNum xs) (Some a) = Some m /\ (m <= a)%Q.
Proof.
  revert a; induction xs as [|x xs IH]; intros a; simpl.
  - exists a; split; [reflexivity | apply Qle_refl].
  - destruct (IH (Py.min a x)) as [m [Hm Hle]].
    exists m; split; [exact Hm|].
    eapply Qle_trans; [exact Hle|].
    unfold Py.min. destruct (Py.lt x a) eqn:E.
    + apply py_lt_iff in E. apply Qlt_le_weak; exact E.
    + apply Qle_refl.
Qed.

Lemma reduce_max_bound (xs : list Q) (a : Q) :
  exists m, fold_left (fun acc c =>
               match acc, number c with
               | Some a, Some q => Some (Py.max a q)
               | None, Some q => Some q
               | _, None => acc
               end) (map CNum xs) (Some a) = Some m /\ (a <= m)%Q.
Proof.
  revert a; induction xs as [|x xs IH]; intros a; simpl.
  - exists a; split; [reflexivity | apply Qle_refl].
  - destruct (IH (Py.max a x)) as [m [Hm Hle]].
    exists m; split; [exact Hm|].
    eapply Qle_trans; [|exact Hle].
    unfold Py.max. destruct (Py.lt a x) eqn:E.
    + apply py_lt_iff in E. apply Qlt_le_weak; exact E.
    + apply Qle_refl.
Qed.

Lemma series_min_le_max (x : Q) (xs : list Q) :
  exists lo hi,
    series_min (map CNum (x :: xs)) = Some lo
    /\ series_max (map CNum (x :: xs)) = Some hi
    /\ (lo <= hi)%Q.
Proof.
  unfold series_min, series_max, reduce; simpl.
  destruct (reduce_min_bound xs x) as [lo [Hlo Hle1]].
  destruct (reduce_max_bound xs x) as [hi [Hhi Hle2]].
  exists lo, hi. repeat split; try assumption.
  eapply Qle_trans; eassumption.
Qed.

Lemma py_min_of_le (lo hi : Q) : (lo <= hi)%Q -> (Py.min lo hi == lo)%Q.
Proof.
  intros H. unfold Py.min. destruct (Py.lt hi lo) eqn:E; [|reflexivity].
  apply py_lt_iff in E. exfalso. apply (Qlt_irrefl hi).
  eapply Qlt_le_trans; eassumption.
Qed.

Lemma py_max_of_le (lo hi : Q) : (lo <= hi)%Q -> (Py.max lo hi == hi)%Q.
Proof.
  intros H. unfold Py.max. destruct (Py.lt lo hi) eqn:E; [reflexivity|].
  apply py_lt_false_iff in E. apply Qle_antisym; assumption.
Qed.

Lemma extremes_box_consistent (n : Node) (ns : list Node) :
  exists p1 p2,
    extremes (n :: ns) = Some (p1, p2)
    /\ Py.list_eq (compute_box_constraints p1 p2)
                  [px p1; px p2; py p1; py p2; pz p1; pz p2] = true.
Proof.
  unfold extremes.
  destruct (series_min_le_max (n_x n) (map n_x ns)) as [x0 [x1 [Hx0 [Hx1 Hx]]]].
  destruct (series_min_le_max (n_y n) (map n_y ns)) as [y0 [y1 [Hy0 [Hy1 Hy]]]].
  destruct (series_min_le_max (n_z n) (map n_z ns)) as [z0 [z1 [Hz0 [Hz1 Hz]]]].
  rewrite <- !map_cons, !map_map in Hx0, Hx1, Hy0, Hy1, Hz0, Hz1.
  rewrite Hx0, Hx1, Hy0, Hy1, Hz0, Hz1.
  eexists; eexists; split; [reflexivity|].
  apply py_list_eq_iff. unfold compute_box_constraints; simpl.
  repeat constructor;
    first [apply py_min_of_le; assumption | apply py_max_of_le; assumption].
Qed.

End Queries.

(** ** get_nodes_in_box: which nodes are returned *)

Section NodesInBox.

Import GraphDB Frame Utility.

Lemma same_key_refl (n : Node) : same_key n n = true.
Proof.
  unfold same_key, Py.eq. rewrite !Z.eqb_refl. simpl.
  rewrite !andb_true_iff. repeat split; apply Qeq_bool_iff; reflexivity.
Qed.

Lemma mem_In (gid : Z) (ids : list Z) : mem gid ids = true -> In gid ids.
Proof.
  unfold mem. rewrite existsb_exists. intros [x [Hx E]].
  apply Z.eqb_eq in E. subst; assumption.
Qed.

Lemma add_candidate_keeps n gid acc m ids :
  In (m, ids) acc ->
  exists ids', In (m, ids') (add_candidate n gid acc) /\ incl ids ids'.
Proof.
  induction acc as [|[m0 ids0] acc IH]; simpl; [intros []|].
  intros [H | H]; destruct (same_key m0 n).
  - inversion H; subst. eexists; split; [left; reflexivity|].
    destruct (mem gid ids); [apply incl_refl | apply incl_appl, incl_refl].
  - inversion H; subst. exists ids; split; [left; reflexivity | apply incl_refl].
  - exists ids; split; [right; assumption | apply incl_refl].
  - destruct (IH H) as [ids' [H1 H2]]. exists ids'; split; [right|]; assumption.
Qed.

Lemma add_candidate_adds n gid acc :
  exists m ids, In (m, ids) (add_candidate n gid acc)
                /\ same_key m n = true /\ In gid ids.
Proof.
  induction acc as [|[m0 ids0] acc IH]; simpl.
  - exists n, [gid]. repeat split; [left; reflexivity | apply same_key_refl
                                    | left; reflexivity].
  - destruct (same_key m0 n) eqn:K.
    + eexists; eexists; split; [left; reflexivity|]. split; [exact K|].
      destruct (mem gid ids0) eqn:E; [apply mem_In; exact E|].
      apply in_or_app; right; left; reflexivity.
    + destruct IH as [m [ids [H1 [H2 H3]]]].
      exists m, ids. repeat split; [right|..]; assumption.
Qed.

Lemma add_candidate_sound all n l acc :
  In (n, l) all -> group_sound all acc ->
  group_sound all (add_candidate n (l_global_id l) acc).
Proof.
  intros Hnl. induction acc as [|[m0 ids0] acc IH]; intros Hacc m ids; simpl.
  - intros [H | []]. inversion H; subst.
    exists l; split; [assumption | left; reflexivity].
  - assert (Htail : group_sound all acc).
    { intros m' ids' H'. apply Hacc. right; assumption. }
    destruct (Hacc m0 ids0 (or_introl Logic.eq_refl)) as [l0 [H0 H1]].
    destruct (same_key m0 n); intros [H | H].
    + inversion H; subst. exists l0; split; [assumption|].
      destruct (mem (l_global_id l) ids0); [assumption|].
      apply in_or_app; left; assumption.
    + apply Htail; assumption.
    + inversion H; subst. exists l0; split; assumption.
    + apply (IH Htail); assumption.
Qed.

Lemma group_fold_sound all bs acc :
  incl bs all -> group_sound all acc ->
  group_sound all
    (fold_left (fun acc nl => add_candidate (fst nl) (l_global_id (snd nl)) acc)
               bs acc).
Proof.
  revert acc; induction bs as [|[n l] bs IH]; intros acc Hincl Hacc; simpl.
  - exact Hacc.
  - apply IH.
    + intros b Hb. apply Hincl. right; assumption.
    + apply add_candidate_sound; [|exact Hacc].
      apply Hincl. left; reflexivity.
Qed.

Lemma group_fold_keeps bs acc n gid :
  (exists m ids, In (m, ids) acc /\ same_key m n = true /\ In gid ids) ->
  exists m ids,
    In (m, ids)
       (fold_left (fun acc nl => add_candidate (fst nl) (l_global_id (snd nl)) acc)
                  bs acc)
    /\ same_key m n = true /\ In gid ids.
Proof.
  revert acc; induction bs as [|[n' l'] bs IH]; intros acc H; simpl.
  - exact H.
  - apply IH. destruct H as [m [ids [H1 [H2 H3]]]].
    destruct (add_candidate_keeps n' (l_global_id l') acc m ids H1) as [ids' [H4 H5]].
    exists m, ids'. repeat split; [assumption | assumption | apply H5; assumption].
Qed.

Lemma group_fold_complete bs acc n l :
  In (n, l) bs ->
  exists m ids,
    In (m, ids)
       (fold_left (fun acc nl => add_candidate (fst nl) (l_global_id (snd nl)) acc)
                  bs acc)
    /\ same_key m n = true /\ In (l_global_id l) ids.
Proof.
  revert acc; induction bs as [|[n' l'] bs IH]; intros acc; simpl; [intros []|].
  intros [H | H].
  - inversion H; subst. apply group_fold_keeps. apply add_candidate_adds.
  - apply IH; assumption.
Qed.

Lemma group_nodes_add n gid acc :
  map fst (add_candidate n gid acc)
  = if existsb (fun mc => same_key (fst mc) n) acc
    then map fst acc else map fst acc ++ [n].
Proof.
  induction acc as [|[m0 ids0] acc IH]; simpl; [reflexivity|].
  destruct (same_key m0 n); simpl; [reflexivity|].
  rewrite IH. destruct (existsb _ acc); reflexivity.
Qed.

Lemma distinct_keys_snoc (ns : list Node) (n : Node) :
  ForallOrdPairs (fun a b => same_key a b = false) ns ->
  Forall (fun m => same_key m n = false) ns ->
  ForallOrdPairs (fun a b => same_key a b = false) (ns ++ [n]).
Proof.
  induction 1 as [|m ns Hm _ IH]; simpl; intros Hall.
  - repeat constructor.
  - inversion Hall as [|? ? Hmn Hall']; subst. constructor.
    + apply Forall_app. split; [exact Hm | repeat constructor; exact Hmn].
    + apply IH; exact Hall'.
Qed.

Lemma group_fold_distinct bs acc :
  ForallOrdPairs (fun a b => same_key a b = false) (map fst acc) ->
  ForallOrdPairs (fun a b => same_key a b = false)
    (map fst (fold_left
                (fun acc nl => add_candidate (fst nl) (l_global_id (snd nl)) acc)
                bs acc)).
Proof.
  revert acc; induction bs as [|[n l] bs IH]; intros acc Hacc; simpl;
    [exact Hacc|].
  apply IH. rewrite group_nodes_add.
  destruct (existsb (fun mc => same_key (fst mc) n) acc) eqn:E; [exact Hacc|].
  apply distinct_keys_snoc; [exact Hacc|].
  apply Forall_forall. intros m Hm. apply in_map_iff in Hm.
  destruct Hm as [mc [<- Hin]].
  apply not_true_iff_false. intros K.
  assert (X : existsb (fun mc => same_key (fst mc) n) acc = true)
    by (apply existsb_exists; exists mc; auto).
  congruence.
Qed.

Lemma in_box_iff (p1 p2 : point) (n : Node) :
  in_box (Py.min (px p1) (px p2)) (Py.max (px p1) (px p2))
         (Py.min (py p1) (py p2)) (Py.max (py p1) (py p2))
         (Py.min (pz p1) (pz p2)) (Py.max (pz p1) (pz p2)) n = true
  <-> inside_box p1 p2 n.
Proof.
  unfold in_box, inside_box. rewrite !andb_true_iff, !py_le_iff. tauto.
Qed.

(** What [get_nodes_in_box] returns.  It always returns a frame.
    Each of its rows is a node at [timestamp] that lies within the
    inclusive bounds of [compute_box_constraints(p1, p2)] and is
    connected to at least one loop, with the id of such a loop among its
    candidates; every node at [timestamp] within the bounds that is
    connected to a loop has a row (the row of its grouping key) whose
    candidates hold that loop's id; and no two rows have the same
    grouping key.  For the nodes A, B, C of the example, each connected
    to loop 7, the box (1,1,1)-(9,9,9) returns the row of B only. *)
Theorem get_nodes_in_box_connected_nodes
        (g : Graph) (p1 p2 : point) (timestamp : Z)
        (where_clause : option string) :
  exists df,
    get_nodes_in_box g p1 p2 timestamp where_clause = inr df
    /\ (forall row, In row (data df) ->
          exists n l ids,
            row = node_row n ids /\ In (n, l) (node_loop_pairs g)
            /\ n_time n = timestamp /\ inside_box p1 p2 n
            /\ In (l_global_id l) ids)
    /\ (forall n l, In (n, l) (node_loop_pairs g) ->
                    n_time n = timestamp -> inside_box p1 p2 n ->
          exists m ids,
            In (node_row m ids) (data df) /\ same_key m n = true
            /\ In (l_global_id l) ids)
    /\ (exists groups,
          data df = map (fun nc => node_row (fst nc) (snd nc)) groups
          /\ ForallOrdPairs (fun a b => same_key a b = false)
                            (map fst groups))
    /\ get_nodes_in_box Examples.graph_ABC_on_loop Examples.corner_1
                        Examples.corner_9 Examples.T where_clause
       = inr {| columns := map Lbl ["timestamp"; "node_id"; "x"; "y"; "z";
                                    "loop_candidates"]%string;
                data := [node_row Examples.node_B [7]] |}.
Proof.
  eexists. split; [reflexivity|]. simpl data.
  rewrite data_from_records.
  set (sel := filter _ (node_loop_pairs g)).
  assert (Hsel : forall n l, In (n, l) sel <->
                   In (n, l) (node_loop_pairs g) /\ n_time n = timestamp
                   /\ inside_box p1 p2 n).
  { intros n l. unfold sel. rewrite filter_In. simpl.
    rewrite andb_true_iff, Z.eqb_eq, in_box_iff. tauto. }
  split; [|split; [|split]].
  - intros row Hrow. apply in_map_iff in Hrow.
    destruct Hrow as [[n ids] [Hrow Hin]]. simpl in Hrow.
    assert (Hs : group_sound sel (group sel)).
    { apply group_fold_sound; [apply incl_refl | intros ? ? []]. }
    destruct (Hs n ids Hin) as [l [Hl Hgid]].
    apply Hsel in Hl. destruct Hl as [Hl [Ht Hb]].
    exists n, l, ids.
    refine (conj _ (conj Hl (conj Ht (conj Hb Hgid)))).
    symmetry; assumption.
  - intros n l Hnl Ht Hb.
    assert (Hin : In (n, l) sel) by (apply Hsel; auto).
    destruct (group_fold_complete sel [] n l Hin) as [m [ids [H1 [H2 H3]]]].
    exists m, ids. refine (conj _ (conj H2 H3)).
    apply in_map_iff. exists (m, ids). split; [reflexivity | exact H1].
  - exists (group sel). split; [reflexivity|].
    apply group_fold_distinct. constructor.
  - reflexivity.
Qed.

Lemma inside_box_B :
  inside_box Examples.corner_1 Examples.corner_9 Examples.node_B.
Proof. apply in_box_iff. reflexivity. Qed.

Lemma get_nodes_in_box_connected_nodes_witness :
  exists df m ids,
    get_nodes_in_box Examples.graph_ABC_on_loop Examples.corner_1
                     Examples.corner_9 Examples.T None = inr df
    /\ In (node_row m ids) (data df)
    /\ same_key m Examples.node_B = true /\ In 7 ids.
Proof.
  destruct (get_nodes_in_box_connected_nodes
              Examples.graph_ABC_on_loop Examples.corner_1
              Examples.corner_9 Examples.T None)
    as [df [Hdf [_ [Hall _]]]].
  destruct (Hall Examples.node_B {| l_global_id := 7; l_time := Examples.T |})
    as [m [ids [H1 [H2 H3]]]].
  - simpl. right; left; reflexivity.
  - reflexivity.
  - exact inside_box_B.
  - exists df, m, ids. repeat split; assumption.
Defined.

(** C2 (failing on the code). The docstring promises all nodes with
    coordinates in the box, and the query leaves out every node that is
    connected to no loop: with A, B, C stored at T and no loop connected
    to any of them, B is a node at T within the bounds of the box
    (1,1,1)-(9,9,9), and the call returns a frame without rows. *)
Lemma get_nodes_in_box_misses_loopless_node :
  In Examples.node_B (nodes Examples.graph_ABC)
  /\ n_time Examples.node_B = Examples.T
  /\ inside_box Examples.corner_1 Examples.corner_9 Examples.node_B
  /\ get_nodes_in_box Examples.graph_ABC Examples.corner_1 Examples.corner_9
                      Examples.T None
     = inr {| columns := []; data := [] |}.
Proof.
  split; [right; left; reflexivity|].
  split; [reflexivity|].
  split; [exact inside_box_B | reflexivity].
Qed.

End NodesInBox.

(** ** The aggregation loop: general facts *)

Section AggregationFacts.

Import Eloop.

Lemma is_row_key (k ts : Z) (r : row) :
  is_row k ts r = true <-> key r = (k, ts).
Proof.
  unfold is_row, key. rewrite andb_true_iff, !Z.eqb_eq.
  split; [intros [-> ->]; reflexivity | intros H; inversion H; auto].
Qed.

Lemma is_row_same_key (k ts : Z) (r r' : row) :
  key r = key r' -> is_row k ts r = is_row k ts r'.
Proof. unfold key, is_row. intros H; inversion H as [[H1 H2]]. reflexivity. Qed.

Lemma key_on_row f k ts r :
  (forall r, key (f r) = key r) -> key (on_row f k ts r) = key r.
Proof. intros Hf. unfold on_row. destruct (is_row k ts r); auto. Qed.

Lemma keys_on_row f k ts (df : frame) :
  (forall r, key (f r) = key r) ->
  map key (map (on_row f k ts) df) = map key df.
Proof.
  intros Hf. rewrite map_map. apply map_ext. intros r.
  apply key_on_row; exact Hf.
Qed.

Lemma filter_on_row f k ts k' ts' (df : frame) :
  (forall r, key (f r) = key r) ->
  filter (is_row k ts) (map (on_row f k' ts') df)
  = map (on_row f k' ts') (filter (is_row k ts) df).
Proof.
  intros Hf. induction df as [|r df IH]; simpl; [reflexivity|].
  rewrite (is_row_same_key k ts _ r (key_on_row f k' ts' r Hf)).
  destruct (is_row k ts r); simpl; rewrite IH; reflexivity.
Qed.

Lemma filter_on_row_other f k ts k' ts' (df : frame) :
  (forall r, key (f r) = key r) -> k <> k' ->
  filter (is_row k ts) (map (on_row f k' ts') df) = filter (is_row k ts) df.
Proof.
  intros Hf Hk. rewrite filter_on_row by exact Hf.
  rewrite <- (map_id (filter (is_row k ts) df)) at 2.
  apply map_ext_in. intros r Hr. apply filter_In in Hr. destruct Hr as [_ Hr].
  unfold on_row. destruct (is_row k' ts' r) eqn:E; [|reflexivity].
  apply is_row_key in Hr, E. rewrite Hr in E. inversion E. contradiction.
Qed.

Lemma key_append_jtype jtype r : key (append_jtype jtype r) = key r.
Proof. reflexivity. Qed.

Lemma key_extend_connected peers r : key (extend_connected peers r) = key r.
Proof. reflexivity. Qed.

Lemma collected_iff_keys (df : frame) (ts k : Z) :
  collected df ts k <-> In (k, ts) (map key df).
Proof.
  unfold collected. rewrite in_map_iff. split.
  - intros [r [Hin Hr]]. exists r. split; [apply is_row_key; exact Hr | exact Hin].
  - intros [r [Hr Hin]]. exists r. split; [exact Hin | apply is_row_key; exact Hr].
Qed.

Lemma collected_iff_filter (df : frame) (ts k : Z) :
  collected df ts k <-> filter (is_row k ts) df <> [].
Proof.
  unfold collected. split.
  - intros [r [Hin Hr]] E.
    assert (H : In r (filter (is_row k ts) df)) by (apply filter_In; auto).
    rewrite E in H. exact H.
  - destruct (filter (is_row k ts) df) as [|r l] eqn:E; [intros H; contradiction|].
    intros _. exists r. apply filter_In. rewrite E. left; reflexivity.
Qed.

Lemma filter_unique (df : frame) (ts k : Z) :
  NoDup (map key df) ->
  filter (is_row k ts) df = [] \/ exists r, filter (is_row k ts) df = [r].
Proof.
  induction df as [|r df IH]; simpl; [left; reflexivity|].
  intros Hnd. inversion Hnd as [|? ? Hnotin Hnd']; subst.
  destruct (is_row k ts r) eqn:E.
  - right. exists r. f_equal.
    destruct (filter (is_row k ts) df) as [|r' l] eqn:F; [reflexivity|].
    exfalso. apply Hnotin.
    assert (H : In r' (filter (is_row k ts) df)) by (rewrite F; left; reflexivity).
    apply filter_In in H. destruct H as [Hin Hr'].
    apply is_row_key in E, Hr'. rewrite E, <- Hr'. apply in_map; exact Hin.
  - apply IH; exact Hnd'.
Qed.

(** *** One token of one junction *)

Lemma fold_loop_malformed ts junction loops loop df :
  Py.int loop = None ->
  fold_loop ts junction loops loop df = (df, inl Py.ValueError).
Proof.
  intros H. unfold fold_loop, bind, lift, int. rewrite H. reflexivity.
Qed.

Lemma fold_loop_missing ts junction loops loop k df :
  Py.int loop = Some k -> filter (is_row k ts) df = [] ->
  fold_loop ts junction loops loop df = (df, inl Py.KeyError).
Proof.
  intros H F. unfold fold_loop, bind, lift, int, loc. rewrite H, F. reflexivity.
Qed.

Lemma fold_loop_ambiguous ts junction loops loop k r1 r2 rs df :
  Py.int loop = Some k -> filter (is_row k ts) df = r1 :: r2 :: rs ->
  fold_loop ts junction loops loop df = (df, inl Py.AttributeError).
Proof.
  intros H F. unfold fold_loop, bind, lift, int, loc. rewrite H, F. reflexivity.
Qed.

Lemma fold_loop_found ts junction loops loop k r df :
  Py.int loop = Some k -> filter (is_row k ts) df = [r] ->
  fold_loop ts junction loops loop df
  = match others loops k with
    | inl e => (map (on_row (append_jtype (snd junction)) k ts) df, inl e)
    | inr peers =>
        (map (on_row (extend_connected peers) k ts)
             (map (on_row (append_jtype (snd junction)) k ts) df), inr tt)
    end.
Proof.
  intros H F. unfold fold_loop, bind, lift, int, loc, mutate.
  rewrite H, F. cbv beta iota.
  rewrite (filter_on_row _ k ts k ts df (key_append_jtype (snd junction))), F.
  simpl map. cbv beta iota.
  destruct (others loops k); reflexivity.
Qed.

Lemma fold_loop_keys ts junction loops loop df :
  map key (fst (fold_loop ts junction loops loop df)) = map key df.
Proof.
  destruct (Py.int loop) as [k|] eqn:H;
    [|rewrite fold_loop_malformed by exact H; reflexivity].
  destruct (filter (is_row k ts) df) as [|r [|r' rs]] eqn:F.
  - rewrite (fold_loop_missing _ _ _ _ _ _ H F); reflexivity.
  - rewrite (fold_loop_found _ _ _ _ _ _ _ H F).
    destruct (others loops k); simpl;
      rewrite ?keys_on_row; auto using key_append_jtype, key_extend_connected.
  - rewrite (fold_loop_ambiguous _ _ _ _ _ _ _ _ _ H F); reflexivity.
Qed.

(** *** Loops over tokens, junctions and timestamps *)

Lemma for_each_preserves {A : Type} (P : frame -> Prop)
      (xs : list A) (body : A -> M unit) :
  (forall x df, In x xs -> P df -> P (fst (body x df))) ->
  forall df, P df -> P (fst (for_each xs body df)).
Proof.
  induction xs as [|x xs IH]; intros Hbody df Hdf; simpl; [exact Hdf|].
  unfold bind.
  pose proof (Hbody x df (or_introl Logic.eq_refl) Hdf) as Hx.
  destruct (body x df) as [df' [e|[]]]; simpl in *; [exact Hx|].
  apply IH; [|exact Hx].
  intros y df'' Hy. apply Hbody. right; exact Hy.
Qed.



Lemma fold_junction_keys ts junction df :
  map key (fst (fold_junction ts junction df)) = map key df.
Proof.
  unfold fold_junction.
  apply (for_each_preserves (fun df' => map key df' = map key df));
    [|reflexivity].
  intros loop df' _ H. rewrite fold_loop_keys. exact H.
Qed.

Lemma fold_junctions_keys ts junctions df :
  map key (fst (for_each junctions (fold_junction ts) df)) = map key df.
Proof.
  apply (for_each_preserves (fun df' => map key df' = map key df));
    [|reflexivity].
  intros j df' _ H. rewrite fold_junction_keys. exact H.
Qed.

Lemma process_timestamp_eq g ts df :
  process_timestamp g ts df
  = for_each (junction_query g ts) (fold_junction ts)
             (df ++ map (fresh_row ts) (loop_query g ts)).
Proof. reflexivity. Qed.

(** *** No loop is connected to itself *)

Lemma others_not_self loops k peers :
  others loops k = inr peers -> ~ In k peers.
Proof.
  revert peers; induction loops as [|loop loops IH]; simpl; intros peers.
  - intros H; inversion H; subst. intros [].
  - destruct (Py.int loop) as [k0|]; [|discriminate].
    destruct (others loops k) as [e|peers0]; simpl; [discriminate|].
    intros H; inversion H; subst; clear H.
    destruct (k0 =? k) eqn:E; simpl.
    + apply IH; reflexivity.
    + intros [H | H]; [apply Z.eqb_neq in E; contradiction|].
      revert H. apply IH; reflexivity.
Qed.

Lemma no_self_append_jtype jtype k ts r :
  no_self r -> no_self (on_row (append_jtype jtype) k ts r).
Proof. unfold on_row. destruct (is_row k ts r); auto. Qed.

Lemma no_self_extend_connected peers k ts r :
  ~ In k peers -> no_self r -> no_self (on_row (extend_connected peers) k ts r).
Proof.
  unfold on_row. destruct (is_row k ts r) eqn:E; [|auto].
  intros Hk Hr. unfold no_self; simpl. intros H.
  apply in_app_or in H. destruct H as [H | H]; [exact (Hr H)|].
  apply is_row_key in E. inversion E; subst. exact (Hk H).
Qed.

Lemma fold_loop_no_self ts junction loops loop df :
  Forall no_self df ->
  Forall no_self (fst (fold_loop ts junction loops loop df)).
Proof.
  intros Hdf.
  destruct (Py.int loop) as [k|] eqn:H;
    [|rewrite fold_loop_malformed by exact H; exact Hdf].
  destruct (filter (is_row k ts) df) as [|r [|r' rs]] eqn:F.
  - rewrite (fold_loop_missing _ _ _ _ _ _ H F); exact Hdf.
  - rewrite (fold_loop_found _ _ _ _ _ _ _ H F).
    destruct (others loops k) as [e|peers] eqn:O; simpl.
    + apply Forall_map. revert Hdf. apply Forall_impl.
      intros a. apply no_self_append_jtype.
    + apply Forall_map, Forall_map. revert Hdf. apply Forall_impl.
      intros a Ha. apply no_self_extend_connected.
      * apply (others_not_self loops); exact O.
      * apply no_self_append_jtype; exact Ha.
  - rewrite (fold_loop_ambiguous _ _ _ _ _ _ _ _ _ H F); exact Hdf.
Qed.

Lemma fold_junction_no_self ts junction df :
  Forall no_self df -> Forall no_self (fst (fold_junction ts junction df)).
Proof.
  unfold fold_junction. apply for_each_preserves.
  intros loop df' _. apply fold_loop_no_self.
Qed.

Lemma process_timestamp_no_self g ts df :
  Forall no_self df -> Forall no_self (fst (process_timestamp g ts df)).
Proof.
  intros Hdf. rewrite process_timestamp_eq. apply for_each_preserves.
  - intros j df' _. apply fold_junction_no_self.
  - apply Forall_app. split; [exact Hdf|].
    apply Forall_map, Forall_forall. intros k _ [].
Qed.

(** C5. The list that the fold appends to the connected loops of [L]
    never holds [L]; folding the junctions of a timestamp into rows none
    of which lists its own id leaves rows none of which lists its own
    id, whether the fold completes or raises; and so it is for every row
    that a run of the whole scan leaves behind. *)
Theorem connected_loops_never_self :
  (forall loops L,
      match others loops L with
      | inr peers => ~ In L peers
      | inl _ => True
      end)
  /\ (forall ts junctions df,
        Forall no_self df ->
        Forall no_self (fst (for_each junctions (fold_junction ts) df)))
  /\ (forall g, Forall no_self (fst (aggregate g))).
Proof.
  split; [|split].
  - intros loops L. destruct (others loops L) eqn:O; [exact I|].
    apply (others_not_self loops); exact O.
  - intros ts junctions df. apply for_each_preserves.
    intros j df' _. apply fold_junction_no_self.
  - intros g. unfold aggregate. apply for_each_preserves; [|constructor].
    intros ts df _. apply process_timestamp_no_self.
Qed.

Lemma connected_loops_never_self_witness :
  Forall no_self
         (fst (for_each [("1-2", "T")]%string (fold_junction 50)
                        [fresh_row 50 1; fresh_row 50 2])).
Proof.
  apply (proj1 (proj2 connected_loops_never_self)).
  repeat constructor; intros [].
Defined.

End AggregationFacts.

(** ** Malformed junction ids *)

Section MalformedJunction.

Import Eloop.








End MalformedJunction.

(** ** Loop ids that were not collected *)

Section UnknownLoop.

Import Eloop.

Lemma decode_tokens loops ids :
  decode loops = Some ids ->
  (forall loop, In loop loops -> exists k, Py.int loop = Some k /\ In k ids)
  /\ (forall k, In k ids -> exists loop, In loop loops /\ Py.int loop = Some k).
Proof.
  revert ids; induction loops as [|loop loops IH]; simpl; intros ids H.
  - inversion H; subst. split; [intros ? [] | intros ? []].
  - destruct (Py.int loop) as [k0|] eqn:E; [|discriminate].
    destruct (decode loops) as [ks|]; [|discriminate].
    inversion H; subst; clear H.
    destruct (IH ks Logic.eq_refl) as [IH1 IH2]. split.
    + intros tok [<- | Hin].
      * exists k0. split; [exact E | left; reflexivity].
      * destruct (IH1 tok Hin) as [k [Hk Hin']].
        exists k. split; [exact Hk | right; exact Hin'].
    + intros k [<- | Hin].
      * exists loop. split; [left; reflexivity | exact E].
      * destruct (IH2 k Hin) as [tok [Hin' Hk]].
        exists tok. split; [right; exact Hin' | exact Hk].
Qed.

Lemma decode_total loops :
  (forall loop, In loop loops -> exists k, Py.int loop = Some k) ->
  exists ids, decode loops = Some ids.
Proof.
  induction loops as [|loop loops IH]; simpl; intros H.
  - exists []; reflexivity.
  - destruct (H loop (or_introl Logic.eq_refl)) as [k Hk]. rewrite Hk.
    destruct IH as [ids Hids]; [intros tok Hin; apply H; right; exact Hin|].
    rewrite Hids. exists (k :: ids); reflexivity.
Qed.


Lemma collected_same_keys (df df' : frame) ts k :
  map key df' = map key df -> (collected df' ts k <-> collected df ts k).
Proof. intros H. rewrite !collected_iff_keys, H. reflexivity. Qed.




Lemma distinct_keys_distinct_at (df : frame) ts :
  NoDup (map key df) -> distinct_at df ts.
Proof.
  intros H k. destruct (filter_unique df ts k H) as [-> | [r ->]]; simpl; lia.
Qed.


Lemma fold_loop_success ts junction loops loop df df' :
  fold_loop ts junction loops loop df = (df', inr tt) ->
  exists k, Py.int loop = Some k /\ collected df ts k.
Proof.
  intros H.
  destruct (Py.int loop) as [k|] eqn:Hk;
    [|rewrite fold_loop_malformed in H by exact Hk; discriminate].
  exists k. split; [reflexivity|].
  destruct (filter (is_row k ts) df) as [|r [|r' rs]] eqn:F.
  - rewrite (fold_loop_missing _ _ _ _ _ _ Hk F) in H; discriminate.
  - apply collected_iff_filter. rewrite F. discriminate.
  - apply collected_iff_filter. rewrite F. discriminate.
Qed.

Lemma for_each_success {A : Type} (Q : frame -> Prop)
      (xs : list A) (body : A -> M unit) :
  (forall x d, Q d -> Q (fst (body x d))) ->
  forall df df',
    Q df -> for_each xs body df = (df', inr tt) ->
    forall x, In x xs -> exists d d', Q d /\ body x d = (d', inr tt).
Proof.
  intros HQ. induction xs as [|y xs IH]; intros df df' Hdf H x Hin;
    [destruct Hin|].
  simpl in H. unfold bind in H.
  pose proof (HQ y df Hdf) as Hy.
  destruct (body y df) as [d1 [e|[]]] eqn:E; [discriminate|].
  destruct Hin as [<- | Hin].
  - exists df, d1. split; assumption.
  - apply (IH d1 df' Hy H x Hin).
Qed.


Lemma fold_junction_success ts junction df df' :
  fold_junction ts junction df = (df', inr tt) ->
  exists ids, decode (Py.split "-" (fst junction)) = Some ids
              /\ forall k, In k ids -> collected df ts k.
Proof.
  unfold fold_junction. intros H.
  set (loops := Py.split "-" (fst junction)) in *.
  assert (Htok : forall loop, In loop loops ->
                   exists k, Py.int loop = Some k /\ collected df ts k).
  { intros loop Hin.
    destruct (for_each_success (fun d => map key d = map key df) loops
                (fold_loop ts junction loops)
                (fun x d Hd => Logic.eq_trans (fold_loop_keys ts junction loops x d) Hd)
                df df' Logic.eq_refl H loop Hin) as [d [d' [Hd E]]].
    destruct (fold_loop_success _ _ _ _ _ _ E) as [k [Hk Hc]].
    exists k. split; [exact Hk|].
    apply (collected_same_keys df d ts k Hd). exact Hc. }
  destruct (decode_total loops) as [ids Hids].
  { intros loop Hin. destruct (Htok loop Hin) as [k [Hk _]]. exists k; exact Hk. }
  exists ids. split; [exact Hids|].
  intros k Hin.
  destruct (proj2 (decode_tokens loops ids Hids) k Hin) as [loop [Hl Hk]].
  destruct (Htok loop Hl) as [k' [Hk' Hc]].
  rewrite Hk in Hk'. inversion Hk'; subst. exact Hc.
Qed.


(** Collecting distinct loop ids at a timestamp without rows keeps the
    index entries of a frame distinct. *)
Lemma collect_loops_keys_distinct ts ids df :
  NoDup (map key df) -> (forall k, ~ collected df ts k) -> NoDup ids ->
  NoDup (map key (fst (collect_loops ts ids df))).
Proof.
  intros Hdf Hnone Hids. simpl. rewrite map_app, map_map.
  apply NoDup_app; [exact Hdf | |].
  - induction Hids as [|k ids Hk _ IH]; simpl; constructor; [|exact IH].
    rewrite in_map_iff. intros [k' [E Hin]]. inversion E; subst. contradiction.
  - intros [k t] Hin Hin'. apply in_map_iff in Hin'.
    destruct Hin' as [k' [E _]]. unfold key in E; simpl in E.
    inversion E; subst k t.
    apply (Hnone k'). apply collected_iff_keys. exact Hin.
Qed.

End UnknownLoop.

(** ** The output of one timestamp *)

Section AggregationOutput.

Import Eloop.

Lemma is_row_fresh (k ts a : Z) : is_row k ts (fresh_row ts a) = (a =? k).
Proof. unfold is_row; simpl. rewrite Z.eqb_refl. apply andb_true_r. Qed.


Lemma filter_fresh_head ts k ids :
  In k ids ->
  exists rest,
    filter (is_row k ts) (map (fresh_row ts) ids) = fresh_row ts k :: rest.
Proof.
  induction ids as [|a ids IH]; simpl; intros H; [destruct H|].
  rewrite is_row_fresh. destruct (a =? k) eqn:E.
  - apply Z.eqb_eq in E; subst. eexists; reflexivity.
  - apply IH. destruct H as [H | H]; [apply Z.eqb_neq in E; contradiction | exact H].
Qed.


Lemma filter_not_collected df ts k :
  ~ collected df ts k -> filter (is_row k ts) df = [].
Proof.
  intros H. destruct (filter (is_row k ts) df) eqn:F; [reflexivity|].
  exfalso. apply H, collected_iff_filter. rewrite F. discriminate.
Qed.

(** Rows of a loop that no token names are left as they are. *)
Lemma fold_loop_other_rows ts junction loops loop k df :
  Py.int loop <> Some k ->
  filter (is_row k ts) (fst (fold_loop ts junction loops loop df))
  = filter (is_row k ts) df.
Proof.
  intros Hk.
  destruct (Py.int loop) as [k'|] eqn:H;
    [|rewrite fold_loop_malformed by exact H; reflexivity].
  assert (Hne : k <> k') by (intros ->; apply Hk; reflexivity).
  destruct (filter (is_row k' ts) df) as [|r [|r' rs]] eqn:F.
  - rewrite (fold_loop_missing _ _ _ _ _ _ H F); reflexivity.
  - rewrite (fold_loop_found _ _ _ _ _ _ _ H F).
    destruct (others loops k'); simpl;
      rewrite ?filter_on_row_other;
      auto using key_append_jtype, key_extend_connected.
  - rewrite (fold_loop_ambiguous _ _ _ _ _ _ _ _ _ H F); reflexivity.
Qed.





End AggregationOutput.

(** ** Loop ids that were not collected: the fold *)

Section UnknownLoopFold.

Import Eloop.





End UnknownLoopFold.

(** ** More on box geometry *)

Section BoxInvariants.

Import Utility.

Lemma py_min_le_l (a b : Q) : (Py.min a b <= a)%Q.
Proof.
  unfold Py.min. destruct (Py.lt b a) eqn:E; [|apply Qle_refl].
  apply py_lt_iff in E. apply Qlt_le_weak; exact E.
Qed.

Lemma py_min_le_r (a b : Q) : (Py.min a b <= b)%Q.
Proof.
  unfold Py.min. destruct (Py.lt b a) eqn:E; [apply Qle_refl|].
  apply py_lt_false_iff in E. exact E.
Qed.

Lemma py_max_ge_l (a b : Q) : (a <= Py.max a b)%Q.
Proof.
  unfold Py.max. destruct (Py.lt a b) eqn:E; [|apply Qle_refl].
  apply py_lt_iff in E. apply Qlt_le_weak; exact E.
Qed.

Lemma py_max_ge_r (a b : Q) : (b <= Py.max a b)%Q.
Proof.
  unfold Py.max. destruct (Py.lt a b) eqn:E; [apply Qle_refl|].
  apply py_lt_false_iff in E. exact E.
Qed.

(** X1. The constraints are six numbers with the lower bound of each
    axis not above its upper bound, and both corner points lie within
    them. *)
Theorem compute_box_constraints_bounds (p1 p2 : point) :
  exists x0 x1 y0 y1 z0 z1,
    compute_box_constraints p1 p2 = [x0; x1; y0; y1; z0; z1]
    /\ (x0 <= x1 /\ y0 <= y1 /\ z0 <= z1)%Q
    /\ (x0 <= px p1 <= x1 /\ y0 <= py p1 <= y1 /\ z0 <= pz p1 <= z1)%Q
    /\ (x0 <= px p2 <= x1 /\ y0 <= py p2 <= y1 /\ z0 <= pz p2 <= z1)%Q.
Proof.
  do 6 eexists. split; [reflexivity|].
  repeat split;
    first [apply py_min_le_max | apply py_min_le_l | apply py_min_le_r
           | apply py_max_ge_l | apply py_max_ge_r].
Qed.

(** X2. Taking the constraints again from the two extreme corners of a
    box (all lower bounds, all upper bounds) gives the same constraints:
    the box of a box is the box. *)
Theorem compute_box_constraints_of_extremes (p1 p2 : point) :
  forall x0 x1 y0 y1 z0 z1,
    compute_box_constraints p1 p2 = [x0; x1; y0; y1; z0; z1] ->
    Py.list_eq (compute_box_constraints (Point x0 y0 z0) (Point x1 y1 z1))
               (compute_box_constraints p1 p2) = true
    /\ check_same_box (Point x0 y0 z0) (Point x1 y1 z1) p1 p2 = true
    /\ check_same_box (Point x1 y1 z1) (Point x0 y0 z0) p1 p2 = true.
Proof.
  intros x0 x1 y0 y1 z0 z1 H.
  assert (A : Forall2 Qeq (compute_box_constraints (Point x0 y0 z0)
                                                   (Point x1 y1 z1))
                          (compute_box_constraints p1 p2)).
  { rewrite H. unfold compute_box_constraints in *.
    inversion H; subst; simpl.
    repeat constructor;
      first [apply py_min_of_le; apply py_min_le_max
             | apply py_max_of_le; apply py_min_le_max]. }
  assert (B : Forall2 Qeq (compute_box_constraints (Point x1 y1 z1)
                                                   (Point x0 y0 z0))
                          (compute_box_constraints p1 p2)).
  { rewrite H. unfold compute_box_constraints in *.
    inversion H; subst; simpl.
    repeat constructor;
      first [rewrite py_min_comm; apply py_min_of_le; apply py_min_le_max
            | rewrite py_max_comm; apply py_max_of_le; apply py_min_le_max]. }
  unfold check_same_box. rewrite !py_list_eq_iff. auto.
Qed.

Lemma compute_box_constraints_of_extremes_witness :
  check_same_box (Point 1 2 3) (Point 4 5 6) (Point 4 2 6) (Point 1 5 3) = true.
Proof.
  apply (compute_box_constraints_of_extremes (Point 4 2 6) (Point 1 5 3)
                                             1 4 2 5 3 6).
  reflexivity.
Defined.

End BoxInvariants.

(** ** More on get_nodes_in_box *)

Section NodesInBoxMore.

Import GraphDB Frame Utility Boxes.

Lemma py_le_qeq (a a' b b' : Q) :
  (a == a')%Q -> (b == b')%Q -> Py.le a b = Py.le a' b'.
Proof.
  intros Ha Hb. apply eq_true_iff_eq. rewrite !py_le_iff, Ha, Hb. reflexivity.
Qed.

Lemma in_box_qeq a0 a1 a2 a3 a4 a5 b0 b1 b2 b3 b4 b5 (n : Node) :
  Forall2 Qeq [a0; a1; a2; a3; a4; a5] [b0; b1; b2; b3; b4; b5] ->
  in_box a0 a1 a2 a3 a4 a5 n = in_box b0 b1 b2 b3 b4 b5 n.
Proof.
  intros H.
  repeat match goal with
         | H : Forall2 _ (_ :: _) (_ :: _) |- _ => inversion H; subst; clear H
         end.
  unfold in_box.
  repeat match goal with
         | E : (?a == ?b)%Q |- _ =>
             rewrite ?(py_le_qeq a b (n_x n) (n_x n) E (Qeq_refl _)),
                     ?(py_le_qeq a b (n_y n) (n_y n) E (Qeq_refl _)),
                     ?(py_le_qeq a b (n_z n) (n_z n) E (Qeq_refl _)),
                     ?(py_le_qeq (n_x n) (n_x n) a b (Qeq_refl _) E),
                     ?(py_le_qeq (n_y n) (n_y n) a b (Qeq_refl _) E),
                     ?(py_le_qeq (n_z n) (n_z n) a b (Qeq_refl _) E);
             clear E
         end.
  reflexivity.
Qed.

(** X4. The result of [get_nodes_in_box] depends on the box and not on
    the diagonal that names it: two diagonals that [check_same_box]
    accepts return the same frame, whatever the extra filter text. *)
Theorem get_nodes_in_box_same_box (g : Graph) (p1 p2 p3 p4 : point)
        (timestamp : Z) (w w' : option string) :
  check_same_box p1 p2 p3 p4 = true ->
  get_nodes_in_box g p1 p2 timestamp w = get_nodes_in_box g p3 p4 timestamp w'.
Proof.
  unfold check_same_box. rewrite py_list_eq_iff. intros H.
  unfold get_nodes_in_box. simpl. do 4 f_equal.
  apply filter_ext. intros [n l]. simpl. f_equal.
  apply in_box_qeq. exact H.
Qed.

Lemma get_nodes_in_box_same_box_witness :
  get_nodes_in_box Examples.graph_ABC_on_loop Examples.corner_1
                   Examples.corner_9 Examples.T None
  = get_nodes_in_box Examples.graph_ABC_on_loop (Point 9 1 9) (Point 1 9 1)
                     Examples.T (Some "n.id > 0"%string).
Proof. apply get_nodes_in_box_same_box. reflexivity. Defined.

Lemma mem_false_not_in (gid : Z) (ids : list Z) :
  mem gid ids = false -> ~ In gid ids.
Proof.
  unfold mem. intros H Hin.
  assert (X : existsb (Z.eqb gid) ids = true)
    by (apply existsb_exists; exists gid; split; [exact Hin | apply Z.eqb_refl]).
  congruence.
Qed.

Lemma add_candidate_ids n gid acc :
  Forall (fun mc => snd mc <> [] /\ NoDup (snd mc)) acc ->
  Forall (fun mc => snd mc <> [] /\ NoDup (snd mc)) (add_candidate n gid acc).
Proof.
  induction 1 as [|[m ids] acc [Hne Hnd] Hacc IH]; simpl.
  - repeat constructor; [discriminate | intros []].
  - destruct (same_key m n).
    + constructor; [|exact Hacc]. simpl.
      destruct (mem gid ids) eqn:E; [split; assumption|]. split.
      * intros X. apply app_eq_nil in X. destruct X as [_ X]. discriminate.
      * apply NoDup_app; [exact Hnd | repeat constructor; intros [] |].
        intros a Ha [<- | []]. apply (mem_false_not_in _ _ E Ha).
    + constructor; [split; assumption | exact IH].
Qed.

Lemma group_ids bs acc :
  Forall (fun mc => snd mc <> [] /\ NoDup (snd mc)) acc ->
  Forall (fun mc => snd mc <> [] /\ NoDup (snd mc))
         (fold_left (fun acc nl => add_candidate (fst nl) (l_global_id (snd nl)) acc)
                    bs acc).
Proof.
  revert acc; induction bs as [|b bs IH]; intros acc H; simpl; [exact H|].
  apply IH, add_candidate_ids, H.
Qed.

(** X5. Every row that [get_nodes_in_box] returns carries at least one
    loop candidate, and no candidate twice. *)
Theorem get_nodes_in_box_candidates (g : Graph) (p1 p2 : point)
        (timestamp : Z) (w : option string) (df : DataFrame) :
  get_nodes_in_box g p1 p2 timestamp w = inr df ->
  forall row, In row (data df) ->
    exists n ids, row = node_row n ids /\ ids <> [] /\ NoDup ids.
Proof.
  intros H row Hrow. unfold get_nodes_in_box in H. simpl in H.
  inversion H; subst df; clear H.
  rewrite data_from_records in Hrow. apply in_map_iff in Hrow.
  destruct Hrow as [[n ids] [<- Hin]].
  exists n, ids. split; [reflexivity|].
  pose proof (group_ids (filter (fun nl => (n_time (fst nl) =? timestamp)
                 && in_box (Py.min (px p1) (px p2)) (Py.max (px p1) (px p2))
                           (Py.min (py p1) (py p2)) (Py.max (py p1) (py p2))
                           (Py.min (pz p1) (pz p2)) (Py.max (pz p1) (pz p2))
                           (fst nl))
                        (node_loop_pairs g)) [] (Forall_nil _)) as G.
  rewrite Forall_forall in G. apply (G (n, ids)). exact Hin.
Qed.

Lemma get_nodes_in_box_candidates_witness :
  exists n ids,
    node_row Examples.node_B [7] = node_row n ids /\ ids <> [] /\ NoDup ids.
Proof.
  apply (get_nodes_in_box_candidates
           Examples.graph_ABC_on_loop Examples.corner_1 Examples.corner_9
           Examples.T None
           {| columns := map Lbl ["timestamp"; "node_id"; "x"; "y"; "z";
                                  "loop_candidates"]%string;
              data := [node_row Examples.node_B [7]] |}).
  - reflexivity.
  - left; reflexivity.
Defined.

Lemma node_row_inj n ids n' ids' :
  node_row n ids = node_row n' ids' -> n = n' /\ ids = ids'.
Proof.
  destruct n, n'. unfold node_row; simpl. intros H.
  inversion H; subst. split; reflexivity.
Qed.

Lemma inside_box_within p1 p2 p3 p4 n :
  box_within p1 p2 p3 p4 -> inside_box p1 p2 n -> inside_box p3 p4 n.
Proof.
  unfold box_within, inside_box.
  intros [A0 [A1 [B0 [B1 [C0 C1]]]]] [[X0 X1] [[Y0 Y1] [Z0 Z1]]].
  repeat split; eapply Qle_trans; eassumption.
Qed.

(** X7. Enlarging the box never loses a node: when the box of [p1], [p2]
    lies within the box of [p3], [p4], every row returned for the inner
    box has a row of the same node key in the result for the outer
    box. *)
Theorem get_nodes_in_box_monotone (g : Graph) (p1 p2 p3 p4 : point)
        (timestamp : Z) (w w' : option string) (df df' : DataFrame) :
  box_within p1 p2 p3 p4 ->
  get_nodes_in_box g p1 p2 timestamp w = inr df ->
  get_nodes_in_box g p3 p4 timestamp w' = inr df' ->
  forall n ids, In (node_row n ids) (data df) ->
    exists m ids', In (node_row m ids') (data df') /\ same_key m n = true.
Proof.
  intros Hin H H' n ids Hrow.
  unfold get_nodes_in_box in H, H'. simpl in H, H'.
  inversion H; subst df; clear H. inversion H'; subst df'; clear H'.
  rewrite data_from_records in *.
  apply in_map_iff in Hrow. destruct Hrow as [[n0 ids0] [E Hg]].
  apply node_row_inj in E. simpl in E. destruct E as [-> ->].
  match type of Hg with In _ (group ?sel) =>
    assert (Hs : group_sound sel (group sel))
      by (apply group_fold_sound; [apply incl_refl | intros ? ? []]);
    destruct (Hs n ids Hg) as [l [Hl _]]
  end.
  apply filter_In in Hl. simpl in Hl. destruct Hl as [Hpair Hsel].
  apply andb_true_iff in Hsel. destruct Hsel as [Ht Hb].
  apply in_box_iff in Hb. apply (inside_box_within _ _ _ _ _ Hin) in Hb.
  match goal with |- context [group ?sel'] =>
    destruct (group_fold_complete sel' [] n l) as [m [ids' [H1 [H2 _]]]]
  end.
  - apply filter_In. simpl. split; [exact Hpair|].
    apply andb_true_iff. split; [exact Ht | apply in_box_iff; exact Hb].
  - exists m, ids'. split; [|exact H2].
    apply in_map_iff. exists (m, ids'). split; [reflexivity | exact H1].
Qed.

Lemma box_1_9_within_0_10 :
  box_within Examples.corner_1 Examples.corner_9 (Point 0 0 0) (Point 10 10 10).
Proof. unfold box_within. repeat split; apply Qle_bool_iff; reflexivity. Qed.

Lemma get_nodes_in_box_monotone_witness :
  exists m ids',
    In (node_row m ids')
       [node_row Examples.node_A [7]; node_row Examples.node_B [7];
        node_row Examples.node_C [7]]
    /\ same_key m Examples.node_B = true.
Proof.
  apply (get_nodes_in_box_monotone
           Examples.graph_ABC_on_loop Examples.corner_1 Examples.corner_9
           (Point 0 0 0) (Point 10 10 10) Examples.T None None
           {| columns := map Lbl ["timestamp"; "node_id"; "x"; "y"; "z";
                                  "loop_candidates"]%string;
              data := [node_row Examples.node_B [7]] |}
           {| columns := map Lbl ["timestamp"; "node_id"; "x"; "y"; "z";
                                  "loop_candidates"]%string;
              data := [node_row Examples.node_A [7]; node_row Examples.node_B [7];
                       node_row Examples.node_C [7]] |}
           box_1_9_within_0_10 Logic.eq_refl Logic.eq_refl
           Examples.node_B [7]).
  left; reflexivity.
Defined.

End NodesInBoxMore.

(** ** The scan: which rows exist *)

Section ScanRows.

Import Eloop Contribution.

Lemma range_spec (start stop step x : Z) :
  0 < step ->
  (In x (Py.range start stop step)
   <-> start <= x < stop /\ (x - start) mod step = 0).
Proof.
  intros Hstep. unfold Py.range. rewrite in_map_iff.
  set (q := (stop - start + step - 1) / step).
  assert (Hq : q * step <= stop - start + step - 1 < (q + 1) * step).
  { unfold q. pose proof (Z.div_mod (stop - start + step - 1) step).
    pose proof (Z.mod_pos_bound (stop - start + step - 1) step Hstep). nia. }
  split.
  - intros [k [<- Hk]]. apply in_seq in Hk.
    assert (Z.of_nat k < q) by lia.
    split; [nia|].
    replace (start + Z.of_nat k * step - start) with (Z.of_nat k * step) by lia.
    apply Z.mod_mul. lia.
  - intros [[H1 H2] Hm].
    apply Z.mod_divide in Hm; [|lia]. destruct Hm as [k Hk].
    assert (0 <= k) by nia.
    exists (Z.to_nat k). split; [rewrite Z2Nat.id by lia; lia|].
    apply in_seq. split; [lia|]. simpl.
    assert (k < q) by nia. lia.
Qed.

Lemma process_timestamp_keys g ts df :
  map key (fst (process_timestamp g ts df))
  = map key df ++ map (fun k => (k, ts)) (loop_query g ts).
Proof.
  rewrite process_timestamp_eq, fold_junctions_keys, map_app, map_map.
  reflexivity.
Qed.

Lemma scan_keys g tss :
  forall df,
  exists reached rest,
    tss = reached ++ rest
    /\ map key (fst (for_each tss (process_timestamp g) df))
       = map key df ++ scanned_keys g reached
    /\ (snd (for_each tss (process_timestamp g) df) = inr tt -> rest = []).
Proof.
  induction tss as [|ts tss IH]; intros df.
  - exists [], []. simpl. rewrite app_nil_r. auto.
  - simpl. unfold bind.
    pose proof (process_timestamp_keys g ts df) as K.
    destruct (process_timestamp g ts df) as [d1 [e|[]]]; simpl in K.
    + exists [ts], tss. simpl. rewrite app_nil_r.
      split; [reflexivity|]. split; [exact K | discriminate].
    + destruct (IH d1) as [reached [rest [E [Hk Hr]]]].
      exists (ts :: reached), rest. simpl.
      split; [rewrite E; reflexivity|]. split; [|exact Hr].
      rewrite Hk, K, app_assoc. reflexivity.
Qed.

Lemma in_scanned_keys g tss k ts :
  In (k, ts) (scanned_keys g tss) <-> In ts tss /\ In k (loop_query g ts).
Proof.
  unfold scanned_keys. rewrite in_flat_map. split.
  - intros [ts' [Hts Hin]]. apply in_map_iff in Hin.
    destruct Hin as [k' [E Hk]]. inversion E; subst. auto.
  - intros [Hts Hk]. exists ts. split; [exact Hts|].
    apply in_map_iff. exists k. auto.
Qed.

(** X8. Whatever the outcome of the scan, every row that it leaves
    belongs to a loop of the graph at a scanned timestamp: the row's time
    is a multiple of 50 from 50 up to 9950, and its id is the global id
    of a loop stored at that time.  Loops at other times (at 10000, or
    between two steps) never get a row. *)
Theorem aggregate_rows_are_scanned_loops (g : GraphDB.Graph) (r : row) :
  In r (fst (aggregate g)) ->
  (50 <= time r <= 9950 /\ time r mod 50 = 0)
  /\ exists l, In l (GraphDB.loops g)
               /\ GraphDB.l_global_id l = id r
               /\ GraphDB.l_time l = time r.
Proof.
  intros Hr. unfold aggregate in Hr.
  destruct (scan_keys g (Py.range 50 10000 50) []) as [reached [rest [E [Hk _]]]].
  assert (Hin : In (key r) (scanned_keys g reached)).
  { simpl in Hk. rewrite <- Hk. apply in_map. exact Hr. }
  apply in_scanned_keys in Hin. destruct Hin as [Hts Hloop]. simpl in *.
  assert (Hrange : In (time r) (Py.range 50 10000 50))
    by (rewrite E; apply in_or_app; left; exact Hts).
  apply range_spec in Hrange; [|lia]. destruct Hrange as [[H1 H2] H3].
  split.
  - assert (Hm : time r mod 50 = 0).
    { replace (time r) with ((time r - 50) + 1 * 50) by lia.
      rewrite Z.mod_add by lia. exact H3. }
    split; [|exact Hm].
    apply Z.mod_divide in Hm; [|lia]. destruct Hm as [c Hc]. lia.
  - unfold loop_query in Hloop. apply in_map_iff in Hloop.
    destruct Hloop as [l [Hid Hl]]. apply filter_In in Hl.
    destruct Hl as [Hl Ht]. apply Z.eqb_eq in Ht.
    exists l. auto.
Qed.

Lemma aggregate_rows_are_scanned_loops_witness :
  (50 <= 50 <= 9950 /\ 50 mod 50 = 0)
  /\ exists l, In l (GraphDB.loops Examples.graph_123)
               /\ GraphDB.l_global_id l = 3 /\ GraphDB.l_time l = 50.
Proof.
  apply (aggregate_rows_are_scanned_loops Examples.graph_123 (fresh_row 50 3)).
  vm_compute. left; reflexivity.
Defined.

(** X9. A scan that completes leaves exactly one row per loop of every
    scanned timestamp, in the order of the scan and of the loop query,
    and nothing else. *)
Theorem aggregate_rows_of_completed_scan (g : GraphDB.Graph) (df : frame) :
  aggregate g = (df, inr tt) ->
  map key df = scanned_keys g (Py.range 50 10000 50).
Proof.
  intros H. unfold aggregate in H.
  destruct (scan_keys g (Py.range 50 10000 50) []) as [reached [rest [E [Hk Hr]]]].
  rewrite H in Hk, Hr. simpl in Hk, Hr.
  rewrite (Hr Logic.eq_refl), app_nil_r in E. rewrite E. exact Hk.
Qed.

Lemma aggregate_rows_of_completed_scan_witness :
  map key [fresh_row 50 3;
           {| id := 1; time := 50; jtypes := ["T"%string];
              connected_loops := [2] |};
           {| id := 2; time := 50; jtypes := ["T"%string];
              connected_loops := [1] |}]
  = scanned_keys Examples.graph_123 (Py.range 50 10000 50).
Proof.
  apply aggregate_rows_of_completed_scan. vm_compute. reflexivity.
Defined.

End ScanRows.

(** ** The scan: what each row holds *)

Section ScanOutput.

Import Eloop Contribution.

Lemma filter_other_time_on_row f k ts (df : frame) :
  (forall r, key (f r) = key r) ->
  filter (fun r => negb (time r =? ts)) (map (on_row f k ts) df)
  = filter (fun r => negb (time r =? ts)) df.
Proof.
  intros Hf. induction df as [|r df IH]; simpl; [reflexivity|].
  rewrite IH. unfold on_row. destruct (is_row k ts r) eqn:E; [|reflexivity].
  assert (Ht : time r = ts) by (apply is_row_key in E; inversion E; reflexivity).
  assert (Ht' : time (f r) = ts).
  { pose proof (Hf r) as K. unfold key in K. inversion K. congruence. }
  rewrite Ht, Ht', Z.eqb_refl. reflexivity.
Qed.

Lemma fold_loop_other_times ts junction loops loop df :
  filter (fun r => negb (time r =? ts)) (fst (fold_loop ts junction loops loop df))
  = filter (fun r => negb (time r =? ts)) df.
Proof.
  destruct (Py.int loop) as [k|] eqn:H;
    [|rewrite fold_loop_malformed by exact H; reflexivity].
  destruct (filter (is_row k ts) df) as [|r [|r' rs]] eqn:F.
  - rewrite (fold_loop_missing _ _ _ _ _ _ H F); reflexivity.
  - rewrite (fold_loop_found _ _ _ _ _ _ _ H F).
    destruct (others loops k); simpl;
      rewrite ?filter_other_time_on_row;
      auto using key_append_jtype, key_extend_connected.
  - rewrite (fold_loop_ambiguous _ _ _ _ _ _ _ _ _ H F); reflexivity.
Qed.

(** X10. A timestamp touches its own rows only: after
    [process_timestamp] at [ts], completed or not, the rows of every
    other time are the rows that were there, unchanged and in the same
    order. *)
Theorem process_timestamp_other_times (g : GraphDB.Graph) (ts : Z) (df : frame) :
  filter (fun r => negb (time r =? ts)) (fst (process_timestamp g ts df))
  = filter (fun r => negb (time r =? ts)) df.
Proof.
  rewrite process_timestamp_eq.
  transitivity (filter (fun r => negb (time r =? ts))
                       (df ++ map (fresh_row ts) (loop_query g ts))).
  - apply (for_each_preserves
             (fun d => filter (fun r => negb (time r =? ts)) d
                       = filter (fun r => negb (time r =? ts))
                                (df ++ map (fresh_row ts) (loop_query g ts))));
      [|reflexivity].
    intros j d _ Hd. unfold fold_junction.
    apply (for_each_preserves
             (fun d' => filter (fun r => negb (time r =? ts)) d'
                        = filter (fun r => negb (time r =? ts))
                                 (df ++ map (fresh_row ts) (loop_query g ts))));
      [|exact Hd].
    intros loop d' _ Hd'. rewrite fold_loop_other_times. exact Hd'.
  - rewrite filter_app.
    replace (filter (fun r => negb (time r =? ts))
                    (map (fresh_row ts) (loop_query g ts))) with (@nil row);
      [apply app_nil_r|].
    induction (loop_query g ts) as [|a l IH]; simpl; [reflexivity|].
    rewrite Z.eqb_refl. exact IH.
Qed.

Lemma rows_at_other_time (k ts ts' : Z) (df : frame) :
  ts <> ts' ->
  filter (is_row k ts) df
  = filter (is_row k ts) (filter (fun r => negb (time r =? ts')) df).
Proof.
  intros Hne. induction df as [|r df IH]; simpl; [reflexivity|].
  destruct (time r =? ts') eqn:E; simpl.
  - apply Z.eqb_eq in E.
    assert (X : is_row k ts r = false).
    { unfold is_row. apply andb_false_iff. right. apply Z.eqb_neq. congruence. }
    rewrite X. exact IH.
  - destruct (is_row k ts r); rewrite IH; reflexivity.
Qed.

Lemma process_timestamp_rows_elsewhere g ts ts' k df :
  ts <> ts' ->
  filter (is_row k ts) (fst (process_timestamp g ts' df))
  = filter (is_row k ts) df.
Proof.
  intros Hne.
  rewrite (rows_at_other_time k ts ts' _ Hne), process_timestamp_other_times.
  symmetry. apply rows_at_other_time. exact Hne.
Qed.

Lemma fold_loop_output ts junction loops loop k df df' jt cl :
  fold_loop ts junction loops loop df = (df', inr tt) ->
  output df k ts = Some (jt, cl) ->
  output df' k ts
  = Some (jt ++ token_types k junction loop, cl ++ token_peers k loops loop).
Proof.
  intros H Hout. unfold token_types, token_peers.
  destruct (Py.int loop) as [k'|] eqn:Hk;
    [|rewrite fold_loop_malformed in H by exact Hk; discriminate].
  destruct (Z.eqb_spec k' k) as [->|Hne].
  - unfold output in *.
    destruct (filter (is_row k ts) df) as [|r [|r' rs]] eqn:F; [discriminate| |].
    + rewrite (fold_loop_found _ _ _ _ _ _ _ Hk F) in H.
      destruct (others loops k) as [e|peers]; [discriminate|].
      inversion H; subst df'; clear H. inversion Hout; subst; clear Hout.
      rewrite !filter_on_row, F
        by auto using key_append_jtype, key_extend_connected.
      assert (Hr : is_row k ts r = true).
      { assert (X : In r (filter (is_row k ts) df)) by (rewrite F; left; reflexivity).
        apply filter_In in X. apply X. }
      simpl. unfold on_row. rewrite Hr. simpl.
      unfold is_row in *. simpl. rewrite Hr. reflexivity.
    + rewrite (fold_loop_ambiguous _ _ _ _ _ _ _ _ _ Hk F) in H. discriminate.
  - rewrite !app_nil_r. unfold output in *.
    replace df' with (fst (fold_loop ts junction loops loop df))
      by (rewrite H; reflexivity).
    rewrite fold_loop_other_rows; [exact Hout|].
    rewrite Hk. intros X; inversion X; contradiction.
Qed.

Lemma for_each_output {A : Type} (xs : list A) (body : A -> M unit)
      (k ts : Z) (dj : A -> list string) (dc : A -> list Z) :
  (forall x d d' jt cl,
      In x xs -> body x d = (d', inr tt) -> output d k ts = Some (jt, cl) ->
      output d' k ts = Some (jt ++ dj x, cl ++ dc x)) ->
  forall df df' jt cl,
    for_each xs body df = (df', inr tt) ->
    output df k ts = Some (jt, cl) ->
    output df' k ts = Some (jt ++ flat_map dj xs, cl ++ flat_map dc xs).
Proof.
  induction xs as [|x xs IH]; intros Hbody df df' jt cl H Hout.
  - simpl in *. inversion H; subst. rewrite !app_nil_r. exact Hout.
  - simpl in H. unfold bind in H.
    destruct (body x df) as [d1 [e|[]]] eqn:E; [discriminate|].
    pose proof (Hbody x df d1 jt cl (or_introl Logic.eq_refl) E Hout) as H1.
    simpl. rewrite !app_assoc.
    apply (IH (fun y d d' jt cl Hy => Hbody y d d' jt cl (or_intror Hy))
              d1 df' _ _ H H1).
Qed.

Lemma fold_junction_output ts junction k df df' jt cl :
  fold_junction ts junction df = (df', inr tt) ->
  output df k ts = Some (jt, cl) ->
  output df' k ts
  = Some (jt ++ junction_types k junction, cl ++ junction_peers k junction).
Proof.
  unfold fold_junction, junction_types, junction_peers.
  apply for_each_output.
  intros loop d d' jt' cl' _. apply fold_loop_output.
Qed.

Lemma process_timestamp_output g ts k df df' :
  process_timestamp g ts df = (df', inr tt) ->
  ~ collected df ts k -> In k (loop_query g ts) ->
  output df' k ts
  = Some (flat_map (junction_types k) (junction_query g ts),
          flat_map (junction_peers k) (junction_query g ts)).
Proof.
  rewrite process_timestamp_eq. intros H Hnone Hk.
  apply (for_each_output (junction_query g ts) (fold_junction ts) k ts
           (junction_types k) (junction_peers k)
           (fun x d d' jt cl _ => fold_junction_output ts x k d d' jt cl)
           _ df' [] [] H).
  unfold output. rewrite filter_app, (filter_not_collected df ts k Hnone).
  simpl. destruct (filter_fresh_head ts k _ Hk) as [rest ->]. reflexivity.
Qed.

Lemma scan_output g tss :
  NoDup tss ->
  forall df df',
    (forall ts k, In ts tss -> ~ collected df ts k) ->
    for_each tss (process_timestamp g) df = (df', inr tt) ->
    forall ts k, In ts tss -> In k (loop_query g ts) ->
      output df' k ts
      = Some (flat_map (junction_types k) (junction_query g ts),
              flat_map (junction_peers k) (junction_query g ts))
      /\ exists d d', process_timestamp g ts d = (d', inr tt).
Proof.
  induction 1 as [|ts0 tss Hnotin Hnd IH]; intros df df' Hnone H ts k Hts Hk;
    [destruct Hts|].
  simpl in H. unfold bind in H.
  destruct (process_timestamp g ts0 df) as [d1 [e|[]]] eqn:E; [discriminate|].
  destruct Hts as [<- | Hts].
  - split; [|exists df, d1; exact E].
    unfold output.
    replace df' with (fst (for_each tss (process_timestamp g) d1))
      by (rewrite H; reflexivity).
    assert (X : filter (is_row k ts0) (fst (for_each tss (process_timestamp g) d1))
                = filter (is_row k ts0) d1).
    { apply (for_each_preserves
               (fun d => filter (is_row k ts0) d = filter (is_row k ts0) d1));
        [|reflexivity].
      intros ts' d Hin Hd. rewrite process_timestamp_rows_elsewhere; [exact Hd|].
      intros ->. contradiction. }
    rewrite X.
    apply (process_timestamp_output g ts0 k df d1 E);
      [apply Hnone; left; reflexivity | exact Hk].
  - apply (IH d1 df'); try assumption.
    intros ts' k' Hts' Hc. apply collected_iff_keys in Hc.
    replace d1 with (fst (process_timestamp g ts0 df)) in Hc
      by (rewrite E; reflexivity).
    rewrite process_timestamp_keys in Hc. apply in_app_or in Hc.
    destruct Hc as [Hc | Hc].
    + apply (Hnone ts' k' (or_intror Hts')). apply collected_iff_keys; exact Hc.
    + apply in_map_iff in Hc. destruct Hc as [a [Ea _]]. inversion Ea; subst.
      contradiction.
Qed.

Lemma range_NoDup (start stop step : Z) :
  0 < step -> NoDup (Py.range start stop step).
Proof.
  intros Hstep. unfold Py.range.
  apply Finite.Injective_map_NoDup; [|apply seq_NoDup].
  intros a b Hab. nia.
Qed.



End ScanOutput.

(** ** The scan: which loops are connected *)

Section Connectivity.

Import Eloop Contribution.

Lemma others_decode loops ids k :
  decode loops = Some ids ->
  others loops k = inr (filter (fun x => negb (x =? k)) ids).
Proof.
  revert ids; induction loops as [|loop loops IH]; simpl; intros ids H.
  - inversion H; reflexivity.
  - destruct (Py.int loop) as [k0|]; [|discriminate].
    destruct (decode loops) as [ks|]; [|discriminate].
    inversion H; subst; clear H.
    rewrite (IH ks Logic.eq_refl). simpl.
    destruct (k0 =? k); reflexivity.
Qed.

Lemma junction_peers_in junction ids k m :
  decode (Py.split "-" (fst junction)) = Some ids ->
  (In m (junction_peers k junction) <-> In k ids /\ In m ids /\ m <> k).
Proof.
  intros Hdec. unfold junction_peers.
  set (loops := Py.split "-" (fst junction)) in *.
  destruct (decode_tokens loops ids Hdec) as [D1 D2].
  rewrite in_flat_map. unfold token_peers.
  rewrite (others_decode loops ids k Hdec). split.
  - intros [tok [Htok Hm]].
    destruct (D1 tok Htok) as [k' [Hk' Hin]]. rewrite Hk' in Hm.
    destruct (k' =? k) eqn:E; [apply Z.eqb_eq in E; subst k'|destruct Hm].
    apply filter_In in Hm. destruct Hm as [Hm Hne].
    apply negb_true_iff, Z.eqb_neq in Hne. auto.
  - intros [Hk [Hm Hne]].
    destruct (D2 k Hk) as [tok [Htok Hk']].
    exists tok. split; [exact Htok|]. rewrite Hk', Z.eqb_refl.
    apply filter_In. split; [exact Hm|].
    apply negb_true_iff, Z.eqb_neq. exact Hne.
Qed.

Lemma junction_types_in junction ids k t :
  decode (Py.split "-" (fst junction)) = Some ids ->
  (In t (junction_types k junction) <-> t = snd junction /\ In k ids).
Proof.
  intros Hdec. unfold junction_types.
  set (loops := Py.split "-" (fst junction)) in *.
  destruct (decode_tokens loops ids Hdec) as [D1 D2].
  rewrite in_flat_map. unfold token_types. split.
  - intros [tok [Htok Ht]].
    destruct (D1 tok Htok) as [k' [Hk' Hin]]. rewrite Hk' in Ht.
    destruct (k' =? k) eqn:E; [apply Z.eqb_eq in E; subst k'|destruct Ht].
    destruct Ht as [<- | []]. auto.
  - intros [-> Hk].
    destruct (D2 k Hk) as [tok [Htok Hk']].
    exists tok. split; [exact Htok|]. rewrite Hk', Z.eqb_refl.
    left; reflexivity.
Qed.

Lemma scan_junctions_decode g df ts k :
  aggregate g = (df, inr tt) ->
  In ts (Py.range 50 10000 50) -> In k (loop_query g ts) ->
  forall junction, In junction (junction_query g ts) ->
    exists ids, decode (Py.split "-" (fst junction)) = Some ids.
Proof.
  intros H Hts Hk junction Hj.
  destruct (scan_output g (Py.range 50 10000 50)
              (range_NoDup 50 10000 50 Logic.eq_refl) [] df
              (fun _ _ _ (X : collected [] _ _) =>
                 match X with ex_intro _ _ (conj F _) => F end)
              H ts k Hts Hk) as [_ [d [d' E]]].
  rewrite process_timestamp_eq in E.
  destruct (for_each_success (fun _ => True) (junction_query g ts)
              (fold_junction ts) (fun _ _ _ => I) _ d' I E junction Hj)
    as [d0 [d0' [_ E0]]].
  destruct (fold_junction_success ts junction d0 d0' E0) as [ids [Hids _]].
  exists ids; exact Hids.
Qed.

Lemma scan_membership g df ts k :
  aggregate g = (df, inr tt) ->
  In ts (Py.range 50 10000 50) -> In k (loop_query g ts) ->
  exists jts cls,
    output df k ts = Some (jts, cls)
    /\ (forall m,
          In m cls <->
          m <> k
          /\ exists junction ids,
               In junction (junction_query g ts)
               /\ decode (Py.split "-" (fst junction)) = Some ids
               /\ In k ids /\ In m ids)
    /\ (forall t,
          In t jts <->
          exists junction ids,
            In junction (junction_query g ts) /\ snd junction = t
            /\ decode (Py.split "-" (fst junction)) = Some ids /\ In k ids).
Proof.
  intros H Hts Hk.
  destruct (scan_output g (Py.range 50 10000 50)
              (range_NoDup 50 10000 50 Logic.eq_refl) [] df
              (fun _ _ _ (X : collected [] _ _) =>
                 match X with ex_intro _ _ (conj F _) => F end)
              H ts k Hts Hk) as [Hout _].
  pose proof (scan_junctions_decode g df ts k H Hts Hk) as Hdec.
  do 2 eexists. split; [exact Hout|]. split.
  - intros m. rewrite in_flat_map. split.
    + intros [j [Hj Hm]]. destruct (Hdec j Hj) as [ids Hids].
      apply (junction_peers_in j ids k m Hids) in Hm.
      destruct Hm as [A [B C]]. split; [exact C|]. exists j, ids. auto.
    + intros [Hne [j [ids [Hj [Hids [A B]]]]]].
      exists j. split; [exact Hj|].
      apply (junction_peers_in j ids k m Hids). auto.
  - intros t. rewrite in_flat_map. split.
    + intros [j [Hj Ht]]. destruct (Hdec j Hj) as [ids Hids].
      apply (junction_types_in j ids k t Hids) in Ht.
      destruct Ht as [-> A]. exists j, ids. auto.
    + intros [j [ids [Hj [<- [Hids A]]]]].
      exists j. split; [exact Hj|].
      apply (junction_types_in j ids k _ Hids). auto.
Qed.

(** X12. After a scan that completes, the connected loops of loop [k]
    at a scanned timestamp are exactly the other loop ids of the
    junctions of that timestamp that name [k], and its junction types are
    exactly the types of those junctions. *)
Theorem connected_iff_shared_junction (g : GraphDB.Graph) (df : frame)
        (ts k : Z) :
  aggregate g = (df, inr tt) ->
  In ts (Py.range 50 10000 50) -> In k (loop_query g ts) ->
  exists jts cls,
    output df k ts = Some (jts, cls)
    /\ (forall m,
          In m cls <->
          m <> k
          /\ exists junction ids,
               In junction (junction_query g ts)
               /\ decode (Py.split "-" (fst junction)) = Some ids
               /\ In k ids /\ In m ids)
    /\ (forall t,
          In t jts <->
          exists junction ids,
            In junction (junction_query g ts) /\ snd junction = t
            /\ decode (Py.split "-" (fst junction)) = Some ids /\ In k ids).
Proof. apply scan_membership. Qed.

Lemma connected_iff_shared_junction_witness :
  exists jts cls,
    output [fresh_row 50 3;
            {| id := 1; time := 50; jtypes := ["T"%string];
               connected_loops := [2] |};
            {| id := 2; time := 50; jtypes := ["T"%string];
               connected_loops := [1] |}] 1 50 = Some (jts, cls)
    /\ (forall m,
          In m cls <->
          m <> 1
          /\ exists junction ids,
               In junction (junction_query Examples.graph_123 50)
               /\ decode (Py.split "-" (fst junction)) = Some ids
               /\ In 1 ids /\ In m ids)
    /\ (forall t,
          In t jts <->
          exists junction ids,
            In junction (junction_query Examples.graph_123 50)
            /\ snd junction = t
            /\ decode (Py.split "-" (fst junction)) = Some ids /\ In 1 ids).
Proof.
  apply (connected_iff_shared_junction Examples.graph_123).
  - vm_compute. reflexivity.
  - vm_compute. left; reflexivity.
  - simpl. right; left; reflexivity.
Defined.

(** X13. After a scan that completes, connection is symmetric within a
    timestamp: loop [m] is among the connected loops of loop [k] exactly
    when [k] is among the connected loops of [m]. *)
Theorem connected_loops_symmetric (g : GraphDB.Graph) (df : frame)
        (ts k m : Z) :
  aggregate g = (df, inr tt) ->
  In ts (Py.range 50 10000 50) ->
  In k (loop_query g ts) -> In m (loop_query g ts) ->
  exists jts_k cls_k jts_m cls_m,
    output df k ts = Some (jts_k, cls_k)
    /\ output df m ts = Some (jts_m, cls_m)
    /\ (In m cls_k <-> In k cls_m).
Proof.
  intros H Hts Hk Hm.
  destruct (scan_membership g df ts k H Hts Hk) as [jk [ck [Ok [Ck _]]]].
  destruct (scan_membership g df ts m H Hts Hm) as [jm [cm [Om [Cm _]]]].
  exists jk, ck, jm, cm. split; [exact Ok|]. split; [exact Om|].
  rewrite (Ck m), (Cm k). split.
  - intros [Hne [j [ids [A [B [C D]]]]]].
    split; [congruence|]. exists j, ids. auto.
  - intros [Hne [j [ids [A [B [C D]]]]]].
    split; [congruence|]. exists j, ids. auto.
Qed.

Lemma connected_loops_symmetric_witness :
  exists jts_k cls_k jts_m cls_m,
    output [fresh_row 50 3;
            {| id := 1; time := 50; jtypes := ["T"%string];
               connected_loops := [2] |};
            {| id := 2; time := 50; jtypes := ["T"%string];
               connected_loops := [1] |}] 1 50 = Some (jts_k, cls_k)
    /\ output [fresh_row 50 3;
               {| id := 1; time := 50; jtypes := ["T"%string];
                  connected_loops := [2] |};
               {| id := 2; time := 50; jtypes := ["T"%string];
                  connected_loops := [1] |}] 2 50 = Some (jts_m, cls_m)
    /\ (In 2 cls_k <-> In 1 cls_m).
Proof.
  apply (connected_loops_symmetric Examples.graph_123).
  - vm_compute. reflexivity.
  - vm_compute. left; reflexivity.
  - simpl. right; left; reflexivity.
  - simpl. right; right; left; reflexivity.
Defined.

End Connectivity.

(** ** Tokens of a junction id carry no sign *)

Section TokenSigns.

Import Eloop Contribution.


Lemma split_nonempty (sep : ascii) (s : string) : Py.split sep s <> [].
Proof.
  destruct s as [|c s]; simpl; [discriminate|].
  destruct (Ascii.eqb c sep); [discriminate|].
  destruct (Py.split sep s); discriminate.
Qed.











End TokenSigns.

(** ** The writing loops *)

Section WriterFacts.

Import Eloop EloopWriter.

Variable DB : Type.
Variable run_query : write_query -> DB -> DB.

(** The writing loops never reach the database.  On a frame with at
    least one row the first iteration raises [TypeError] at
    [index["id"]], before any query is sent; on a frame without rows both
    loops end at once. *)
Lemma write_never_writes (final_df : frame) (s : state DB) :
  write DB run_query final_df s
  = ({| db := db DB s; curr_time := 50 |},
     match final_df with
     | [] => inr tt
     | _ :: _ => inl Py.TypeError
     end).
Proof. destruct final_df; reflexivity. Qed.

Lemma fold_junction_on_empty ts junction :
  exists e, fold_junction ts junction [] = ([], inl e).
Proof.
  unfold fold_junction.
  pose proof (split_nonempty "-" (fst junction)) as Hne.
  destruct (Py.split "-" (fst junction)) as [|loop loops] eqn:S;
    [contradiction|].
  cbn [Eloop.for_each]. unfold Eloop.bind.
  destruct (Py.int loop) as [k|] eqn:H.
  - rewrite (fold_loop_missing ts junction _ loop k [] H Logic.eq_refl).
    eexists; reflexivity.
  - rewrite (fold_loop_malformed ts junction _ loop [] H).
    eexists; reflexivity.
Qed.

Lemma scan_of_nothing g tss df :
  (forall ts, In ts tss -> loop_query g ts = [] /\ junction_query g ts = []) ->
  Eloop.for_each tss (process_timestamp g) df = (df, inr tt).
Proof.
  induction tss as [|ts tss IH]; intros H; simpl; [reflexivity|].
  unfold Eloop.bind. rewrite process_timestamp_eq.
  destruct (H ts (or_introl Logic.eq_refl)) as [-> ->]. simpl.
  rewrite app_nil_r. apply IH. intros ts' Hts'. apply H. right; exact Hts'.
Qed.

Lemma scan_leaving_nothing g tss :
  Eloop.for_each tss (process_timestamp g) [] = ([], inr tt) ->
  forall ts, In ts tss -> loop_query g ts = [] /\ junction_query g ts = [].
Proof.
  induction tss as [|ts0 tss IH]; intros H ts Hts; [destruct Hts|].
  simpl in H. unfold Eloop.bind in H.
  destruct (process_timestamp g ts0 []) as [d1 [e|[]]] eqn:E; [discriminate|].
  assert (Hd1 : d1 = []).
  { destruct (scan_keys g tss d1) as [reached [rest [_ [Hk _]]]].
    rewrite H in Hk. simpl in Hk. symmetry in Hk.
    apply app_eq_nil in Hk. destruct Hk as [Hk _].
    destruct d1; [reflexivity | discriminate]. }
  subst d1.
  assert (Hloops : loop_query g ts0 = []).
  { pose proof (process_timestamp_keys g ts0 []) as K. rewrite E in K.
    simpl in K. destruct (loop_query g ts0); [reflexivity | discriminate]. }
  assert (Hjs : junction_query g ts0 = []).
  { rewrite process_timestamp_eq, Hloops in E. simpl in E.
    destruct (junction_query g ts0) as [|j js]; [reflexivity|].
    simpl in E. unfold Eloop.bind in E.
    destruct (fold_junction_on_empty ts0 j) as [e Ee]. rewrite Ee in E.
    discriminate. }
  destruct Hts as [<- | Hts]; [auto|].
  apply IH; assumption.
Qed.

(** X15. The script as a whole leaves the database as it found it.  It
    runs to its end only on a graph that has neither a loop nor a
    junction at any scanned timestamp; and whenever the aggregation
    completes with at least one row, the first writing loop raises
    [TypeError] on its first row (the index entry of a row is a tuple,
    and the loop indexes it with a string) before any ELoop is written. *)
Theorem script_completes_only_on_nothing (g : GraphDB.Graph) (db0 : DB) :
  fst (script DB run_query g db0) = db0
  /\ (snd (script DB run_query g db0) = inr tt <->
      forall ts, In ts (Py.range 50 10000 50) ->
                 loop_query g ts = [] /\ junction_query g ts = [])
  /\ (forall r df,
        aggregate g = (r :: df, inr tt) ->
        snd (script DB run_query g db0) = inl Py.TypeError).
Proof.
  unfold script. split; [|split].
  - destruct (aggregate g) as [df [e|u]]; [reflexivity|].
    rewrite write_never_writes. reflexivity.
  - split.
    + intros H. apply scan_leaving_nothing. fold (aggregate g).
      destruct (aggregate g) as [df [e|[]]]; [discriminate|].
      rewrite write_never_writes in H. simpl in H.
      destruct df; [reflexivity | discriminate].
    + intros H. unfold aggregate. rewrite (scan_of_nothing g _ [] H).
      reflexivity.
  - intros r df H. rewrite H, write_never_writes. reflexivity.
Qed.

End WriterFacts.

Lemma script_completes_only_on_nothing_witness :
  snd (EloopWriter.script unit (fun _ db => db)
         {| GraphDB.nodes := []; GraphDB.loops := [];
            GraphDB.junctions := []; GraphDB.node_loop := [] |} tt) = inr tt
  /\ snd (EloopWriter.script unit (fun _ db => db) Examples.graph_123 tt)
     = inl Py.TypeError.
Proof.
  split.
  - apply (proj2 (proj1 (proj2 (script_completes_only_on_nothing
                                  unit (fun _ db => db) _ tt)))).
    intros ts _. split; reflexivity.
  - apply (proj2 (proj2 (script_completes_only_on_nothing
                           unit (fun _ db => db) Examples.graph_123 tt))
                 (Eloop.fresh_row 50 3)
                 [{| Eloop.id := 1; Eloop.time := 50;
                     Eloop.jtypes := ["T"%string];
                     Eloop.connected_loops := [2] |};
                  {| Eloop.id := 2; Eloop.time := 50;
                     Eloop.jtypes := ["T"%string];
                     Eloop.connected_loops := [1] |}]).
    vm_compute. reflexivity.
Defined.
